(** * MUCBot: command dispatch and voting session of [mucbot.py]

    A shallow embedding of the [MUCBot] class.  Python strings are
    modelled as [string] (code points below 256), Python sets as
    [gset string], the two command tables as [gmap string Handler].
    A method of the bot is a computation in the monad [M]: it threads the
    bot's mutable attributes, may raise a Python exception, and logs every
    call that leaves the process (HTTP requests, file reads, stanzas handed
    to the XMPP library). *)

From Stdlib Require Import Ascii DecimalString.
From stdpp Require Import base option list sorting gmap sets strings.

#[local] Set Warnings "-clear-no-such-hyp".

(** ** Python string primitives *)

Module PyStr.

Definition nl : string := String "010"%char EmptyString.
Definition dq : string := String "034"%char EmptyString.

(** [str.isspace] on one code point below 256. *)
Definition isspace (c : ascii) : bool :=
  match c with
  | "009" | "010" | "011" | "012" | "013"
  | "028" | "029" | "030" | "031" | " "
  | "133" | "160" => true
  | _ => false
  end%char.

(** [s.startswith(p)] *)
Definition startswith (s p : string) : bool := String.prefix p s.

Fixpoint lstrip (s : string) : string :=
  match s with
  | String c s' => if isspace c then lstrip s' else s
  | EmptyString => EmptyString
  end.

Definition rstrip (s : string) : string :=
  String.rev (lstrip (String.rev s)).

(** [s.strip()] *)
Definition strip (s : string) : string := rstrip (lstrip s).

(** [s.split(sep)] for a one-character separator: empty tokens are kept
    and the result is never empty. *)
Fixpoint split (sep : ascii) (s : string) : list string :=
  match s with
  | EmptyString => [EmptyString]
  | String c s' =>
      if Ascii.eqb c sep then EmptyString :: split sep s'
      else match split sep s' with
           | tok :: toks => String c tok :: toks
           | [] => [String c EmptyString]
           end
  end.

(** [sep.join(l)] *)
Definition join (sep : string) (l : list string) : string :=
  String.concat sep l.

(** [s[n:]] *)
Fixpoint slice_from (n : nat) (s : string) : string :=
  match n, s with
  | O, _ => s
  | S n', String _ s' => slice_from n' s'
  | S _, EmptyString => EmptyString
  end.

(** The characters at which [str.splitlines] breaks a line. *)
Definition is_linebreak (c : ascii) : bool :=
  match c with
  | "010" | "011" | "012" | "013"
  | "028" | "029" | "030" | "133" => true
  | _ => false
  end%char.

(** [s.splitlines()[0]] for a non-empty [s]. *)
Fixpoint first_line (s : string) : string :=
  match s with
  | EmptyString => EmptyString
  | String c s' => if is_linebreak c then EmptyString else String c (first_line s')
  end.

(** ['{:d}'.format(n)] *)
Definition format_d (n : nat) : string :=
  NilEmpty.string_of_uint (Nat.to_uint n).

(** Truth value of a string. *)
Definition truthy (s : string) : bool :=
  match s with EmptyString => false | String _ _ => true end.

(** Whether [s] is blank: empty or white space only. *)
Fixpoint isblank (s : string) : bool :=
  match s with
  | EmptyString => true
  | String c s' => isspace c && isblank s'
  end.

(** [s[-1]] when [s] is not empty. *)
Fixpoint last_char (s : string) : option ascii :=
  match s with
  | EmptyString => None
  | String c EmptyString => Some c
  | String _ s' => last_char s'
  end.

End PyStr.

(** ** Values, stanzas and the outside world *)

(** Python values that cross the process boundary: request parameters and
    decoded JSON. *)
#[warnings="-register-all"] Inductive pyval : Type :=
  | PNone
  | PBool (b : bool)
  | PInt (n : Z)
  | PStr (s : string)
  | PTuple (items : list pyval)
  | PList (items : list pyval)
  | PDict (fields : list (string * pyval)).

Inductive exn : Type :=
  | UnboundLocalError | KeyError | IndexError | TypeError | ValueError
  | AttributeError | OSError | RequestException.

Inductive Result (A : Type) : Type :=
  | Ok (a : A)
  | Raise (e : exn).
Arguments Ok {A} a.
Arguments Raise {A} e.

(** A JID [bare/resource]; inside a room [bare] is the room and
    [resource] the nickname of the occupant. *)
Record JID : Type := mkJID { bare : string; resource : string }.

(** The fields of an incoming message stanza that the bot reads. *)
Record Message : Type := mkMessage {
  msg_body : string;
  msg_type : string;
  msg_from : JID
}.

(** [mto] is either the JID object itself or its bare string. *)
Inductive address : Type :=
  | ToJID (j : JID)
  | ToBare (b : string).

Record Response : Type := mkResponse {
  status_code : nat;
  (** [None]: the body is not JSON and [.json()] raises [ValueError] *)
  json : option pyval
}.

(** Calls that leave the process, in the order they are made. *)
Inductive event : Type :=
  | HttpGet (url : string) (params : option (list (string * pyval)))
  | FeedParse (url : string)
  | OpenFile (name : string)
  | ReplySend (orig : Message) (body : pyval)
  | SendMessage (mto : address) (mbody : pyval) (mtype : string).

(** What the libraries and the network answer. *)
Record World : Type := mkWorld {
  linesep : string;
  (** [requests.get]; [None] when it raises *)
  http_get : string -> option (list (string * pyval)) -> option Response;
  (** [feedparser.parse(url)['items']], each item with its link if any *)
  feed_items : string -> list (option pyval);
  (** the lines of a file next to the script; [None] when [open]
      raises *)
  read_lines : string -> option (list string);
  (** the draw of [random.choice] among [n] elements *)
  rand_pick : nat -> nat;
  (** [HTMLParser().unescape(v)]: the value it returns, or the exception
      it raises ([AttributeError] where the method no longer exists) *)
  html_unescape : pyval -> Result pyval;
  (** [template.format(nick=nick)] *)
  format_nick : string -> string -> Result string;
  (** [str(v)] for a value that is not a string *)
  py_repr : pyval -> string
}.

(** Constructor arguments kept by [__init__]. *)
Record Config : Type := mkConfig {
  surl_api : string;
  surl_sig : string;
  muc_room : string;
  muc_nick : string
}.

(** The mutable attributes of the bot. *)
Record BotState : Type := mkBotState {
  vote_subject : option string;
  votes_up : gset string;
  votes_down : gset string
}.

(** The state [__init__] leaves. *)
Definition init_state : BotState :=
  {| vote_subject := None; votes_up := ∅; votes_down := ∅ |}.

(** ** The method monad *)

Definition M (A : Type) : Type :=
  BotState -> Result A * BotState * list event.

Definition ret {A} (a : A) : M A := fun st => (Ok a, st, []).

Definition raise {A} (e : exn) : M A := fun st => (Raise e, st, []).

Definition bind {A B} (m : M A) (k : A -> M B) : M B :=
  fun st =>
    match m st with
    | (Ok a, st1, tr1) =>
        match k a st1 with (r, st2, tr2) => (r, st2, tr1 ++ tr2) end
    | (Raise e, st1, tr1) => (Raise e, st1, tr1)
    end.

Definition get_state : M BotState := fun st => (Ok st, st, []).
Definition put_state (st' : BotState) : M unit := fun _ => (Ok tt, st', []).
Definition emit (ev : event) : M unit := fun st => (Ok tt, st, [ev]).
Definition lift {A} (r : Result A) : M A := fun st => (r, st, []).

Declare Scope bot_scope.
Delimit Scope bot_scope with bot.
Notation "x <- m ;; k" := (bind m (fun x => k))
  (at level 100, m at next level, right associativity) : bot_scope.
Notation "m ;;; k" := (bind m (fun _ => k))
  (at level 100, right associativity) : bot_scope.
Local Open Scope bot_scope.

(** What a handler returns, [None] or a text, as the Python value it is. *)
Definition as_value (r : option string) : pyval :=
  match r with
  | Some s => PStr s
  | None => PNone
  end.

(** A method that returns [None] or a text, seen as returning a value. *)
Definition answer (m : M (option string)) : M pyval :=
  r <- m ;; ret (as_value r).

(** Projections of a finished run. *)
Definition result_of {A} (r : Result A * BotState * list event) : Result A := r.1.1.
Definition state_of {A} (r : Result A * BotState * list event) : BotState := r.1.2.
Definition trace_of {A} (r : Result A * BotState * list event) : list event := r.2.

(** Truth value of [self._vote_subject]: [None] and the empty string are
    both false. *)
Definition subject_truthy (o : option string) : bool :=
  match o with
  | Some s => PyStr.truthy s
  | None => false
  end.

(** ['{}'.format(x)] for an attribute or result that is a string or
    [None]. *)
Definition format_field (o : option string) : string :=
  match o with Some s => s | None => "None" end.

(** [str(v)] as used by [str.format]. *)
Definition py_str (W : World) (v : pyval) : string :=
  match v with
  | PStr s => s
  | _ => py_repr W v
  end.

(** [v[key]] for a string key. *)
Definition getitem (v : pyval) (key : string) : Result pyval :=
  match v with
  | PDict fields =>
      match list_find (λ kv, kv.1 = key) fields with
      | Some (_, kv) => Ok kv.2
      | None => Raise KeyError
      end
  | _ => Raise TypeError
  end.

(** [random.choice(l)] *)
Definition choice (W : World) (l : list string) : Result string :=
  match l !! (rand_pick W (length l) `mod` length l) with
  | Some x => Ok x
  | None => Raise IndexError
  end.

(** ** Command handlers and their docstrings *)

(** The bound methods stored in the two command tables. *)
Inductive Handler : Type :=
  | H_help | H_chuck_norris | H_shorten_url | H_wikipedia | H_taunt
  | H_vote_start | H_vote_up | H_vote_down | H_vote_stat | H_vote_end
  | H_slap | H_meal | H_hug | H_kiss.

Global Instance Handler_eq_dec : EqDecision Handler.
Proof. solve_decision. Defined.

(** [inspect.getdoc] of each method.  The docstrings of more than one
    line have their text at the margin, so no indentation is removed, and
    they end with a line of eight spaces, which is not empty and stays. *)
Definition getdoc (h : Handler) : option string :=
  let para (first rest : string) :=
    first +:+ PyStr.nl +:+ PyStr.nl +:+ rest +:+ PyStr.nl +:+ "        " in
  match h with
  | H_help => Some "Returns a help string containing all commands"
  | H_chuck_norris =>
      Some (para "Displays a random Chuck Norris joke from http://icndb.com"
                 "You can optionally change the name of the main character by appending him as arguments: chuck <firstname> <lastname>")
  | H_shorten_url =>
      Some (para "Shorten a URL with the http://kurzma.ch URL shortener"
                 "shorturl http://myurl.com")
  | H_vote_start =>
      Some (para "Starts a voting"
                 "You have to provide a subject: vstart <subject>")
  | H_vote_up => Some "Vote up for the current voting"
  | H_vote_down => Some "Vote down for the current voting"
  | H_vote_stat => Some "Displays statistics for the current voting"
  | H_vote_end => Some "Ends the current voting and shows the result"
  | H_slap =>
      Some (para "Slaps the given user"
                 "Simply type: !slap <nick> an it will slap the person")
  | H_meal => Some "Displays a 'enjoy your meal' message"
  | H_hug => Some "Hugs the given user"
  | H_kiss =>
      Some (para "Kisses the given user"
                 "You can optionally specify the part of the body: kiss <nick> <part of body>")
  | H_wikipedia =>
      Some (para "Displays a random page from the german Wikipedia"
                 "You can display today's featured article: wiki today")
  | H_taunt => Some "Taunts the given user"
  end.

Definition _NO_VOTINGS_MESSAGE : string := "No votings at the moment".
Definition _CMD_PREFIX : string := "!".

(** [self._cmds] *)
Definition _cmds : gmap string Handler :=
  list_to_map
    [("help", H_help); ("chuck", H_chuck_norris); ("surl", H_shorten_url);
     ("wiki", H_wikipedia); ("taunt", H_taunt)].

(** [self._muc_cmds] *)
Definition _muc_cmds : gmap string Handler :=
  list_to_map
    [("help", H_help); ("chuck", H_chuck_norris); ("surl", H_shorten_url);
     ("vstart", H_vote_start); ("vup", H_vote_up); ("vdown", H_vote_down);
     ("vstat", H_vote_stat); ("vend", H_vote_end); ("slap", H_slap);
     ("meal", H_meal); ("hug", H_hug); ("kiss", H_kiss);
     ("wiki", H_wikipedia); ("taunt", H_taunt)].

(** [msg_type in ('normal', 'chat')] *)
Definition is_direct (msg_type : string) : bool :=
  String.eqb msg_type "normal" || String.eqb msg_type "chat".

(** The local variable [cmds] after the [if]/[elif] that both [message]
    and [_help] open with; [None] when neither branch assigned it. *)
Definition select_cmds (msg_type : string) : option (gmap string Handler) :=
  if is_direct msg_type then Some _cmds
  else if String.eqb msg_type "groupchat" then Some _muc_cmds
  else None.

(** Reading a local variable that may be unbound. *)
Definition read_local {A} (v : option A) : M A :=
  match v with
  | Some a => ret a
  | None => raise UnboundLocalError
  end.

(** [sorted(cmds.keys())] *)
Definition sorted_keys (cmds : gmap string Handler) : list string :=
  merge_sort String.le (map_to_list cmds).*1.

Section Bot.

Context (W : World) (cfg : Config).

(** [requests.get(url, params=params)] *)
Definition requests_get (url : string)
    (params : option (list (string * pyval))) : M Response :=
  emit (HttpGet url params) ;;;
  match http_get W url params with
  | Some r => ret r
  | None => raise RequestException
  end.

(** [request.json()] *)
Definition response_json (r : Response) : M pyval :=
  match json r with
  | Some v => ret v
  | None => raise ValueError
  end.

(** [open(filepath)] followed by the generator that strips each line. *)
Definition read_stripped (name : string) : M (list string) :=
  emit (OpenFile name) ;;;
  match read_lines W name with
  | Some ls => ret (PyStr.strip <$> ls)
  | None => raise OSError
  end.

(** *** help *)

(** One iteration of the loop of [_help]: the line for [cmd], or
    nothing when the loop continues. *)
Definition help_entry (cmds : gmap string Handler) (cmd : string)
    : option string :=
  match cmds !! cmd with
  | Some h =>
      match getdoc h with
      | Some doc =>
          if String.eqb cmd "help" || negb (PyStr.truthy doc) then None
          else Some (_CMD_PREFIX +:+ cmd +:+ ": " +:+ PyStr.first_line doc)
      | None => None
      end
  | None => None
  end.

Definition help_bottom : string :=
  linesep W +:+ "Type !help <command name> to get more info about that specific command.".

Definition help_src : string :=
  "Source code available at http://kurzma.ch/botsrc".

Definition _help (msg : Message) (args : list string) : M (option string) :=
  let cmds := select_cmds (msg_type msg) in
  match args with
  | cmd :: _ =>
      if 1 <? length args then ret None
      else
        table <- read_local cmds ;;
        match table !! cmd with
        | None => ret None
        | Some h =>
            match getdoc h with
            | Some doc => ret (Some (PyStr.join (linesep W) [doc; help_src]))
            | None => raise TypeError
            end
        end
  | [] =>
      table <- read_local cmds ;;
      let docs :=
        ["Available commands:" +:+ linesep W]
          ++ omap (help_entry table) (sorted_keys table)
          ++ [help_bottom] ++ [help_src] in
      ret (Some (PyStr.join (linesep W) docs))
  end.

(** *** URL shortener *)

Definition _shorten_url (msg : Message) (args : list pyval)
    : M (option string) :=
  match args with
  | [] => ret (Some "You must provide a URL to shorten")
  | _ :: _ =>
      let params :=
        [("signature", PStr (surl_sig cfg)); ("url", PTuple args);
         ("action", PStr "shorturl"); ("format", PStr "json")] in
      request <- requests_get (surl_api cfg) (Some params) ;;
      if status_code request =? 200 then
        js <- response_json request ;;
        title <- lift (getitem js "title") ;;
        shorturl <- lift (getitem js "shorturl") ;;
        ret (Some (py_str W title +:+ ": " +:+ py_str W shorturl))
      else ret (Some "Something went wrong :(")
  end.

(** *** Chuck Norris jokes *)

(** The request and the two lines after it.  The joke is whatever the
    JSON holds under the two keys, and the method returns what
    [unescape] returns for it, which need not be a string. *)
Definition chuck_fetch (params : option (list (string * pyval)))
    : M pyval :=
  request <- requests_get "http://api.icndb.com/jokes/random" params ;;
  js <- response_json request ;;
  value <- lift (getitem js "value") ;;
  joke <- lift (getitem value "joke") ;;
  lift (html_unescape W joke).

Definition _chuck_norris (msg : Message) (args : list string)
    : M pyval :=
  match args with
  | [] => chuck_fetch None
  | [first; last] =>
      chuck_fetch (Some [("firstName", PStr first); ("lastName", PStr last)])
  | _ => ret (PStr "You must append a firstname *and* a lastname")
  end.

(** *** Voting *)

Definition _vote_start (msg : Message) (args : list string)
    : M (option string) :=
  st <- get_state ;;
  if subject_truthy (vote_subject st) then
    ret (Some "A vote is already running")
  else
    match args with
    | [] => ret (Some "No subject given. Use vstart <subject>")
    | _ :: _ =>
        put_state {| vote_subject := Some (PyStr.join " " args);
                     votes_up := votes_up st;
                     votes_down := votes_down st |} ;;;
        ret (Some "Voting started")
    end.

Definition _vote_up (msg : Message) (args : list string)
    : M (option string) :=
  st <- get_state ;;
  if negb (subject_truthy (vote_subject st)) then
    ret (Some _NO_VOTINGS_MESSAGE)
  else
    let user := resource (msg_from msg) in
    if bool_decide (user ∈ votes_up st) then
      ret (Some ("You already voted " +:+ user))
    else
      let down :=
        if bool_decide (user ∈ votes_down st)
        then votes_down st ∖ {[user]} else votes_down st in
      put_state {| vote_subject := vote_subject st;
                   votes_up := {[user]} ∪ votes_up st;
                   votes_down := down |} ;;;
      ret (Some (user +:+ " voted up")).

Definition _vote_down (msg : Message) (args : list string)
    : M (option string) :=
  st <- get_state ;;
  if negb (subject_truthy (vote_subject st)) then
    ret (Some _NO_VOTINGS_MESSAGE)
  else
    let user := resource (msg_from msg) in
    if bool_decide (user ∈ votes_down st) then
      ret (Some "You already voted down")
    else
      let up :=
        if bool_decide (user ∈ votes_up st)
        then votes_up st ∖ {[user]} else votes_up st in
      put_state {| vote_subject := vote_subject st;
                   votes_up := up;
                   votes_down := {[user]} ∪ votes_down st |} ;;;
      ret (Some (user +:+ " voted down")).

Definition _vote_stat (msg : Message) (args : list string)
    : M (option string) :=
  st <- get_state ;;
  if subject_truthy (vote_subject st) then
    ret (Some ("Subject: " +:+ PyStr.dq +:+ format_field (vote_subject st)
               +:+ PyStr.dq +:+ ". Votes up: "
               +:+ PyStr.format_d (size (votes_up st))
               +:+ ". Votes down: "
               +:+ PyStr.format_d (size (votes_down st))))
  else ret (Some _NO_VOTINGS_MESSAGE).

Definition _vote_end (msg : Message) (args : list string)
    : M (option string) :=
  st <- get_state ;;
  if negb (subject_truthy (vote_subject st)) then
    ret (Some _NO_VOTINGS_MESSAGE)
  else
    let result :=
      "Voting " +:+ PyStr.dq +:+ format_field (vote_subject st)
      +:+ PyStr.dq +:+ " ended. "
      +:+ PyStr.format_d (size (votes_up st)) +:+ " votes up. "
      +:+ PyStr.format_d (size (votes_down st)) +:+ " votes down" in
    put_state {| vote_subject := None; votes_up := ∅; votes_down := ∅ |} ;;;
    ret (Some result).

(** *** Template and formatting handlers *)

Definition _slap (msg : Message) (args : list string) : M (option string) :=
  let nick := PyStr.join " " args in
  if negb (PyStr.truthy nick) then
    ret (Some "You have to provide a nick name")
  else
    slaps <- read_stripped "slaps.txt" ;;
    template <- lift (choice W slaps) ;;
    slap <- lift (format_nick W template nick) ;;
    ret (Some ("/me " +:+ slap)).

Definition _meal (msg : Message) (args : list string) : M (option string) :=
  ret (Some "Guten Appetit").

Definition _hug (msg : Message) (args : list string) : M (option string) :=
  match args with
  | _ :: _ => ret (Some ("/me hugs " +:+ PyStr.join " " args))
  | [] => ret (Some "Who should I hug?")
  end.

Definition _kiss (msg : Message) (args : list string) : M (option string) :=
  let args_len := length args in
  match args with
  | [] => ret (Some "Who should I kiss?")
  | arg0 :: rest =>
      if args_len =? 1 then
        ret (Some ("/me kisses " +:+ arg0 +:+ " :-*"))
      else if args_len =? 2 then
        match rest with
        | arg1 :: _ =>
            ret (Some ("/me kisses " +:+ arg0 +:+ " on the " +:+ arg1 +:+ " :-*"))
        | [] => raise IndexError
        end
      else ret (Some "Too many arguments")
  end.

Definition _taunt (msg : Message) (args : list string) : M (option string) :=
  jokes <- read_stripped "mother_jokes.txt" ;;
  joke <- lift (choice W jokes) ;;
  let nick :=
    match args with
    | _ :: _ => PyStr.join " " args +:+ "'s"
    | [] => "Deine"
    end in
  text <- lift (format_nick W joke nick) ;;
  ret (Some text).

(** *** Wikipedia *)

(** [list(pages.values())[0]] *)
Definition first_value (pages : pyval) : Result pyval :=
  match pages with
  | PDict ((_, v) :: _) => Ok v
  | PDict [] => Raise IndexError
  | _ => Raise AttributeError
  end.

Definition _wikipedia (msg : Message) (args : list string)
    : M (option string) :=
  if bool_decide ("today" ∈ args) then
    let url := "https://de.wikipedia.org/w/api.php?action=featuredfeed&feed=featured" in
    emit (FeedParse url) ;;;
    match last (feed_items W url) with
    | None => raise IndexError
    | Some None => raise KeyError
    | Some (Some link) => _shorten_url msg [link]
    end
  else
    let params :=
      [("action", PStr "query"); ("format", PStr "json");
       ("generator", PStr "random"); ("grnnamespace", PInt 0);
       ("grnlimit", PInt 1); ("prop", PStr "info");
       ("inprop", PStr "url")] in
    req <- requests_get "http://de.wikipedia.org/w/api.php" (Some params) ;;
    js <- response_json req ;;
    query <- lift (getitem js "query") ;;
    pages <- lift (getitem query "pages") ;;
    page <- lift (first_value pages) ;;
    fullurl <- lift (getitem page "fullurl") ;;
    url <- _shorten_url msg [fullurl] ;;
    ret (Some (format_field url)).

(** ** The dispatcher *)

(** [cmds[cmd](msg, *cmd_args[1:])] once [cmds[cmd]] is known: the value
    the method returns. *)
Definition run_handler (h : Handler) (msg : Message) (args : list string)
    : M pyval :=
  match h with
  | H_help => answer (_help msg args)
  | H_chuck_norris => _chuck_norris msg args
  | H_shorten_url => answer (_shorten_url msg (PStr <$> args))
  | H_wikipedia => answer (_wikipedia msg args)
  | H_taunt => answer (_taunt msg args)
  | H_vote_start => answer (_vote_start msg args)
  | H_vote_up => answer (_vote_up msg args)
  | H_vote_down => answer (_vote_down msg args)
  | H_vote_stat => answer (_vote_stat msg args)
  | H_vote_end => answer (_vote_end msg args)
  | H_slap => answer (_slap msg args)
  | H_meal => answer (_meal msg args)
  | H_hug => answer (_hug msg args)
  | H_kiss => answer (_kiss msg args)
  end.

(** [body.strip().split(' ')] *)
Definition parse_body (body : string) : list string :=
  PyStr.split " " (PyStr.strip body).

(** The routing of the answer, after the handler has returned [resp]. *)
Definition route (msg : Message) (cmd : string) (resp : pyval)
    : M unit :=
  let mtype := msg_type msg in
  if is_direct mtype then emit (ReplySend msg resp)
  else if String.eqb mtype "groupchat" then
    if String.eqb cmd "help" then
      emit (SendMessage (ToJID (msg_from msg)) resp "chat")
    else
      emit (SendMessage (ToBare (bare (msg_from msg))) resp mtype)
  else ret tt.

Definition message (msg : Message) : M unit :=
  let body := msg_body msg in
  if negb (PyStr.startswith body _CMD_PREFIX) then ret tt
  else
    let mtype := msg_type msg in
    match parse_body body with
    | [] => raise IndexError
    | first :: args =>
        let cmd := PyStr.slice_from (String.length _CMD_PREFIX) first in
        let cmds := select_cmds mtype in
        table <- read_local cmds ;;
        match table !! cmd with
        | None => ret tt
        | Some h =>
            resp <- run_handler h msg args ;;
            route msg cmd resp
        end
    end.

End Bot.

(** ** Sample inputs *)

(** A world in which the shortener answers every request with a title
    and a short URL, and both template files hold one line. *)
Definition sample_world : World :=
  {| linesep := PyStr.nl;
     http_get := fun _ _ =>
       Some (mkResponse 200
         (Some (PDict [("title", PStr "Example"); ("shorturl", PStr "http://kurzma.ch/1")])));
     feed_items := fun _ => [];
     read_lines := fun _ => Some ["pokes {nick}"];
     rand_pick := fun _ => 0;
     html_unescape := fun v => Ok v;
     format_nick := fun template nick => Ok (template +:+ nick);
     py_repr := fun _ => "None" |}.

(** A world in which the shortener is down. *)
Definition failing_world : World :=
  {| linesep := linesep sample_world;
     http_get := fun _ _ => Some (mkResponse 500 None);
     feed_items := feed_items sample_world;
     read_lines := read_lines sample_world;
     rand_pick := rand_pick sample_world;
     html_unescape := html_unescape sample_world;
     format_nick := format_nick sample_world;
     py_repr := py_repr sample_world |}.

Definition sample_config : Config :=
  {| surl_api := "http://kurzma.ch/yourls-api.php"; surl_sig := "s3cr3t";
     muc_room := "room@conference.example.org"; muc_nick := "bot" |}.

(** A message from occupant [nick] of the room. *)
Definition room_message (nick body : string) : Message :=
  {| msg_body := body; msg_type := "groupchat";
     msg_from := mkJID "room@conference.example.org" nick |}.

(** The stanzas among a trace: what the bot sent. *)
Definition is_sent (ev : event) : bool :=
  match ev with
  | ReplySend _ _ | SendMessage _ _ _ => true
  | _ => false
  end.

Definition sent (tr : list event) : list event := filter is_sent tr.

(** ** Notions used by the statements *)

(** Invariant (a): nobody is counted on both sides. *)
Definition disjoint_votes (st : BotState) : Prop :=
  votes_up st ## votes_down st.

(** The answer of [_vote_end] for subject [s] and the two counts. *)
Definition end_text (s : string) (up down : nat) : string :=
  "Voting " +:+ PyStr.dq +:+ s +:+ PyStr.dq +:+ " ended. "
  +:+ PyStr.format_d up +:+ " votes up. "
  +:+ PyStr.format_d down +:+ " votes down".

(** A computation that never writes the bot's attributes. *)
Definition keeps_state {A} (m : M A) : Prop :=
  ∀ st, state_of (m st) = st.

(** The parameters [_shorten_url] passes to [requests.get]. *)
Definition surl_params (cfg : Config) (url : pyval) : list (string * pyval) :=
  [("signature", PStr (surl_sig cfg)); ("url", url);
   ("action", PStr "shorturl"); ("format", PStr "json")].

(** The commands that get a line in the listing of [table], in the order
    of the listing. *)
Definition listed_names (table : gmap string Handler) : list string :=
  filter (λ c, is_Some (help_entry table c)) (sorted_keys table).

(** What every reachable session satisfies: invariants (a) and (b), and
    a subject, when there is one, that is not blank. *)
Definition session_ok (st : BotState) : Prop :=
  disjoint_votes st
  ∧ (vote_subject st = None → votes_up st = ∅ ∧ votes_down st = ∅)
  ∧ (∀ s, vote_subject st = Some s → PyStr.isblank s = false).

(** The sessions the bot can be in: the one [__init__] leaves, and those
    that follow by handling one more message. *)
Inductive reachable (W : World) (cfg : Config) : BotState → Prop :=
  | reachable_init : reachable W cfg init_state
  | reachable_message st msg :
      reachable W cfg st →
      reachable W cfg (state_of (message W cfg msg st)).

(** A computation that hands no stanza to the XMPP library. *)
Definition sends_nothing {A} (m : M A) : Prop :=
  ∀ st, sent (trace_of (m st)) = [].

(** [s.count(c)] for one character. *)
Fixpoint count_char (c : ascii) (s : string) : nat :=
  match s with
  | EmptyString => 0
  | String d s' => (if Ascii.eqb d c then 1 else 0) + count_char c s'
  end.

(** Whether [c] occurs in [s]. *)
Definition has_char (c : ascii) (s : string) : Prop := count_char c s ≠ 0.

(** The commands whose handlers write the session. *)
Definition vote_commands : list string := ["vstart"; "vup"; "vdown"; "vend"].

(** The answer of [_vote_stat] for subject [s] and the two counts. *)
Definition stat_text (s : string) (up down : nat) : string :=
  "Subject: " +:+ PyStr.dq +:+ s +:+ PyStr.dq +:+ ". Votes up: "
  +:+ PyStr.format_d up +:+ ". Votes down: " +:+ PyStr.format_d down.

(** The two requests of [_chuck_norris] and [_wikipedia]. *)
Definition chuck_api : string := "http://api.icndb.com/jokes/random".

Definition wiki_api : string := "http://de.wikipedia.org/w/api.php".

Definition wiki_feed : string :=
  "https://de.wikipedia.org/w/api.php?action=featuredfeed&feed=featured".

Definition wiki_params : list (string * pyval) :=
  [("action", PStr "query"); ("format", PStr "json");
   ("generator", PStr "random"); ("grnnamespace", PInt 0);
   ("grnlimit", PInt 1); ("prop", PStr "info"); ("inprop", PStr "url")].

(** The name [_taunt] substitutes into the joke. *)
Definition taunt_nick (args : list string) : string :=
  match args with
  | [] => "Deine"
  | _ :: _ => PyStr.join " " args +:+ "'s"
  end.

(** A world in which Wikipedia names one random page and the shortener
    shortens it. *)
Definition wiki_world : World :=
  {| linesep := linesep sample_world;
     http_get := fun url _ =>
       if String.eqb url wiki_api then
         Some (mkResponse 200
           (Some (PDict [("query", PDict [("pages", PDict [("42",
              PDict [("fullurl", PStr "https://de.wikipedia.org/wiki/Jabber")])])])])))
       else http_get sample_world url None;
     feed_items := fun _ => [Some (PStr "https://de.wikipedia.org/wiki/Heute")];
     read_lines := fun _ => Some [];
     rand_pick := rand_pick sample_world;
     html_unescape := html_unescape sample_world;
     format_nick := format_nick sample_world;
     py_repr := py_repr sample_world |}.

(** A world in which the joke API answers with a joke under an error
    status, and [unescape] returns the joke, which has no entity, as it
    is. *)
Definition joke_world : World :=
  {| linesep := linesep sample_world;
     http_get := fun _ _ =>
       Some (mkResponse 500
         (Some (PDict [("type", PStr "success");
                       ("value", PDict [("id", PInt 7);
                                        ("joke", PStr "Chuck Norris counts to infinity.")])])));
     feed_items := feed_items sample_world;
     read_lines := fun _ => None;
     rand_pick := rand_pick sample_world;
     html_unescape := html_unescape sample_world;
     format_nick := format_nick sample_world;
     py_repr := py_repr sample_world |}.

(** The same world under an interpreter whose [HTMLParser] has no
    [unescape]. *)
Definition modern_world : World :=
  {| linesep := linesep joke_world;
     http_get := http_get joke_world;
     feed_items := feed_items joke_world;
     read_lines := read_lines joke_world;
     rand_pick := rand_pick joke_world;
     html_unescape := fun _ => Raise AttributeError;
     format_nick := format_nick joke_world;
     py_repr := py_repr joke_world |}.

(** A world in which every request is answered with status 200 and a
    body that is not JSON, and the template files are empty. *)
Definition html_world : World :=
  {| linesep := linesep sample_world;
     http_get := fun _ _ => Some (mkResponse 200 None);
     feed_items := feed_items sample_world;
     read_lines := fun _ => Some [];
     rand_pick := rand_pick sample_world;
     html_unescape := html_unescape sample_world;
     format_nick := format_nick sample_world;
     py_repr := py_repr sample_world |}.

(** ** Basic facts *)

Lemma split_not_nil (sep : ascii) (s : string) : PyStr.split sep s ≠ [].
Proof.
  induction s as [|c s IH]; simpl; [done|].
  destruct (Ascii.eqb c sep); [done|].
  by destruct (PyStr.split sep s).
Qed.

Lemma parse_body_cons (body : string) :
  ∃ first args, parse_body body = first :: args.
Proof.
  unfold parse_body.
  destruct (PyStr.split " " (PyStr.strip body)) as [|t ts] eqn:E.
  - by apply split_not_nil in E.
  - by exists t, ts.
Qed.

(** *** What the tokens of a body look like *)

Lemma rev_app_spec s1 s2 : String.rev_app s1 s2 = String.rev s1 +:+ s2.
Proof.
  unfold String.rev. revert s2.
  induction s1 as [|c s1 IH]; intros s2; simpl; [done|].
  rewrite IH, (IH (String c EmptyString)).
  generalize (String.rev_app s1 EmptyString). intros u.
  induction u as [|d u IHu]; simpl; [done|].
  unfold String.app in *. simpl. by rewrite IHu.
Qed.

Lemma string_app_nil_l s : EmptyString +:+ s = s.
Proof. reflexivity. Qed.

Lemma string_app_cons c a b : String c a +:+ b = String c (a +:+ b).
Proof. reflexivity. Qed.

Lemma last_char_is_Some s : s ≠ EmptyString → is_Some (PyStr.last_char s).
Proof.
  induction s as [|c s IH]; [done|]. intros _. simpl.
  destruct s; [by eexists|]. by apply IH.
Qed.

Lemma last_char_cons c s :
  PyStr.last_char (String c s)
  = match PyStr.last_char s with Some d => Some d | None => Some c end.
Proof.
  destruct s as [|d s]; [done|].
  change (PyStr.last_char (String c (String d s)))
    with (PyStr.last_char (String d s)).
  by destruct (last_char_is_Some (String d s)) as [e ->].
Qed.

Lemma last_char_app a b :
  PyStr.last_char (a +:+ b)
  = match PyStr.last_char b with
    | Some c => Some c
    | None => PyStr.last_char a
    end.
Proof.
  induction a as [|x a IH].
  - rewrite string_app_nil_l. by destruct (PyStr.last_char b).
  - rewrite string_app_cons, !last_char_cons, IH. by destruct (PyStr.last_char b).
Qed.

(** What [lstrip] leaves starts with a character that is not white
    space, and what [rstrip] leaves ends with one. *)
Lemma lstrip_head s c s' :
  PyStr.lstrip s = String c s' → PyStr.isspace c = false.
Proof.
  induction s as [|d s IH]; simpl; [done|].
  destruct (PyStr.isspace d) eqn:E; [done|]. by intros [= <- _].
Qed.

Lemma rstrip_last s c :
  PyStr.last_char (PyStr.rstrip s) = Some c → PyStr.isspace c = false.
Proof.
  unfold PyStr.rstrip.
  destruct (PyStr.lstrip (String.rev s)) as [|d u] eqn:E; [done|].
  apply lstrip_head in E. unfold String.rev. simpl.
  rewrite rev_app_spec, last_char_app. simpl. by intros [= <-].
Qed.

(** A string that does not end with the separator splits into tokens
    whose last one ends as the string does. *)
Lemma split_last sep s c :
  PyStr.last_char s = Some c → c ≠ sep →
  ∃ tok, last (PyStr.split sep s) = Some tok ∧ PyStr.last_char tok = Some c.
Proof.
  intros Hc Hne. induction s as [|a s IH]; [done|].
  simpl in Hc. destruct s as [|b s].
  - injection Hc as ->. simpl. destruct (Ascii.eqb_spec c sep); [done|].
    by exists (String c EmptyString).
  - destruct (IH Hc) as (tok & Hlast & Htok).
    change (PyStr.split sep (String a (String b s))) with
      (if Ascii.eqb a sep then EmptyString :: PyStr.split sep (String b s)
       else match PyStr.split sep (String b s) with
            | t :: ts => String a t :: ts
            | [] => [String a EmptyString]
            end).
    destruct (PyStr.split sep (String b s)) as [|t ts] eqn:E; [done|].
    destruct (Ascii.eqb a sep).
    + exists tok. by rewrite last_cons, Hlast.
    + destruct ts as [|t' ts].
      * simpl in Hlast. injection Hlast as ->. exists (String a tok).
        split; [done|]. simpl. by destruct tok.
      * exists tok. split; [|done]. by rewrite last_cons_cons in *.
Qed.

Lemma last_char_None s : PyStr.last_char s = None → s = EmptyString.
Proof.
  intros H. destruct s as [|c s]; [done|].
  destruct (last_char_is_Some (String c s)) as [d Hd]; [done|]. congruence.
Qed.

Lemma isblank_last s c :
  PyStr.last_char s = Some c → PyStr.isspace c = false →
  PyStr.isblank s = false.
Proof.
  intros Hc Hsp. induction s as [|a s IH]; [done|].
  simpl. destruct s as [|b s].
  - injection Hc as ->. by rewrite Hsp.
  - rewrite IH; [|done]. by destruct (PyStr.isspace a).
Qed.

Lemma join_last sep args tok c :
  last args = Some tok → PyStr.last_char tok = Some c →
  PyStr.last_char (PyStr.join sep args) = Some c.
Proof.
  intros Hlast Htok. induction args as [|x args IH]; [done|].
  destruct args as [|y args].
  - injection Hlast as ->. done.
  - rewrite last_cons_cons in Hlast.
    change (PyStr.join sep (x :: y :: args))
      with (x +:+ sep +:+ PyStr.join sep (y :: args)).
    rewrite !last_char_app, IH; done.
Qed.

(** The arguments the dispatcher passes on are never all blank: the body
    was stripped, so its last token ends with a character that is not
    white space. *)
Lemma parsed_args_not_blank body first args :
  parse_body body = first :: args → args ≠ [] →
  PyStr.isblank (PyStr.join " " args) = false.
Proof.
  unfold parse_body. intros Hparse Hargs.
  destruct (PyStr.last_char (PyStr.strip body)) as [c|] eqn:Hc.
  - assert (Hsp : PyStr.isspace c = false) by (by eapply rstrip_last).
    destruct (split_last " " _ c Hc) as (tok & Hlast & Htok).
    { by intros ->. }
    rewrite Hparse in Hlast. destruct args as [|a args]; [done|].
    rewrite last_cons_cons in Hlast.
    eapply isblank_last; [|done]. by eapply join_last.
  - apply last_char_None in Hc. rewrite Hc in Hparse.
    by injection Hparse as _ <-.
Qed.

(** *** The command tables *)

Lemma select_cmds_None (t : string) :
  t ≠ "normal" → t ≠ "chat" → t ≠ "groupchat" → select_cmds t = None.
Proof.
  intros Hn Hc Hg. unfold select_cmds, is_direct.
  apply String.eqb_neq in Hn, Hc, Hg. by rewrite Hn, Hc, Hg.
Qed.

Lemma select_cmds_groupchat : select_cmds "groupchat" = Some _muc_cmds.
Proof. reflexivity. Qed.

Lemma bind_ok {A B} (m : M A) (k : A → M B) st a st1 tr1 :
  m st = (Ok a, st1, tr1) →
  bind m k st = ((k a st1).1.1, (k a st1).1.2, tr1 ++ (k a st1).2).
Proof. intros E. unfold bind. rewrite E. by destruct (k a st1) as [[??]?]. Qed.

Lemma bind_raise {A B} (m : M A) (k : A → M B) st e st1 tr1 :
  m st = (Raise e, st1, tr1) → bind m k st = (Raise e, st1, tr1).
Proof. intros E. unfold bind. by rewrite E. Qed.

(** The dispatcher, once the command is resolved and its handler has
    returned: the handler's effects followed by the routing. *)
Lemma message_dispatch W cfg msg st first args table h resp st' tr :
  PyStr.startswith (msg_body msg) _CMD_PREFIX = true →
  parse_body (msg_body msg) = first :: args →
  select_cmds (msg_type msg) = Some table →
  table !! PyStr.slice_from 1 first = Some h →
  run_handler W cfg h msg args st = (Ok resp, st', tr) →
  message W cfg msg st =
    (Ok tt, st',
     tr ++ (route msg (PyStr.slice_from 1 first) resp st').2).
Proof.
  intros Hpre Hparse Hsel Hlook Hrun. unfold message.
  rewrite Hpre, Hparse, Hsel.
  change (String.length _CMD_PREFIX) with 1.
  set (cmd := PyStr.slice_from 1 first) in *. simpl.
  unfold bind at 1. simpl. rewrite Hlook.
  rewrite (bind_ok _ _ _ _ _ _ Hrun).
  unfold route. destruct (is_direct (msg_type msg)); [done|].
  destruct (String.eqb (msg_type msg) "groupchat"); [|done].
  by destruct (String.eqb _ "help").
Qed.

(** The two silent ends of the dispatcher: a body without the prefix, and
    a command the selected table does not know. *)
Lemma message_no_prefix W cfg msg st :
  PyStr.startswith (msg_body msg) _CMD_PREFIX = false →
  message W cfg msg st = (Ok tt, st, []).
Proof. intros Hpre. unfold message. by rewrite Hpre. Qed.

Lemma message_unknown_command W cfg msg st first args table :
  PyStr.startswith (msg_body msg) _CMD_PREFIX = true →
  parse_body (msg_body msg) = first :: args →
  select_cmds (msg_type msg) = Some table →
  table !! PyStr.slice_from 1 first = None →
  message W cfg msg st = (Ok tt, st, []).
Proof.
  intros Hpre Hparse Hsel Hlook. unfold message.
  rewrite Hpre, Hparse, Hsel.
  change (String.length _CMD_PREFIX) with 1.
  set (cmd := PyStr.slice_from 1 first) in *. simpl.
  unfold bind. simpl. by rewrite Hlook.
Qed.

Lemma select_cmds_Some (t : string) table :
  select_cmds t = Some table →
  (is_direct t = true ∧ table = _cmds)
  ∨ (is_direct t = false ∧ t = "groupchat" ∧ table = _muc_cmds).
Proof.
  unfold select_cmds. destruct (is_direct t); [naive_solver|].
  destruct (String.eqb_spec t "groupchat"); naive_solver.
Qed.

Lemma help_too_many_args W msg a b rest st :
  _help W msg (a :: b :: rest) st = (Ok None, st, []).
Proof. reflexivity. Qed.

Lemma help_unknown_name W msg table name st :
  select_cmds (msg_type msg) = Some table →
  table !! name = None →
  _help W msg [name] st = (Ok None, st, []).
Proof.
  intros Hsel Hnone. unfold _help. rewrite Hsel. simpl.
  unfold bind. simpl. by rewrite Hnone.
Qed.

(** ** Dispatcher: unrecognised message types (C1) *)

(** C1, defect in the code.  A message whose body starts with the prefix
    and whose type is none of normal, chat and groupchat does not end
    silently: neither branch binds the local [cmds], so the membership
    test on it raises [UnboundLocalError].  Nothing is sent and the bot's
    state is untouched. *)
Theorem C1_unknown_type_raises W cfg (msg : Message) (st : BotState) :
  PyStr.startswith (msg_body msg) _CMD_PREFIX = true →
  msg_type msg ≠ "normal" →
  msg_type msg ≠ "chat" →
  msg_type msg ≠ "groupchat" →
  message W cfg msg st = (Raise UnboundLocalError, st, []).
Proof.
  intros Hpre Hn Hc Hg. unfold message. rewrite Hpre. simpl.
  destruct (parse_body_cons (msg_body msg)) as (first & args & ->).
  by rewrite (select_cmds_None _ Hn Hc Hg).
Qed.

Lemma C1_unknown_type_raises_witness :
  message sample_world sample_config
    (mkMessage "!help" "headline" (mkJID "alice@example.org" "desk"))
    init_state
  = (Raise UnboundLocalError, init_state, []).
Proof. apply C1_unknown_type_raises; [reflexivity | discriminate ..]. Defined.

(** ** Dispatcher: a handler that returns nothing (C2) *)

(** C2 as stated fails: [help] with two arguments returns [None], and the
    dispatcher still hands a stanza with that body to the library. *)
Lemma C2_none_result_counterexample :
  let msg := room_message "alice" "!help vup vdown" in
  run_handler sample_world sample_config H_help msg ["vup"; "vdown"] init_state
    = (Ok PNone, init_state, [])
  ∧ sent (trace_of (message sample_world sample_config msg init_state))
    = [SendMessage (ToJID (msg_from msg)) PNone "chat"]
  ∧ sent (trace_of (message sample_world sample_config msg init_state)) ≠ [].
Proof. vm_compute. repeat split; discriminate. Qed.

(** C2, amended.  When the handler of a dispatched command returns no
    value, the dispatcher makes the same single send as for any other
    result, with the absent value as body: a reply to the stanza on a
    direct channel, a chat message to the sender for [help] in the room,
    a groupchat message to the room otherwise. *)
Theorem C2_none_result_is_sent W cfg (msg : Message) (st : BotState)
    first args table h st' tr :
  PyStr.startswith (msg_body msg) _CMD_PREFIX = true →
  parse_body (msg_body msg) = first :: args →
  select_cmds (msg_type msg) = Some table →
  table !! PyStr.slice_from 1 first = Some h →
  run_handler W cfg h msg args st = (Ok PNone, st', tr) →
  message W cfg msg st =
    (Ok tt, st',
     tr ++ [if is_direct (msg_type msg) then ReplySend msg PNone
            else if String.eqb (PyStr.slice_from 1 first) "help"
                 then SendMessage (ToJID (msg_from msg)) PNone "chat"
                 else SendMessage (ToBare (bare (msg_from msg))) PNone "groupchat"]).
Proof.
  intros Hpre Hparse Hsel Hlook Hrun.
  rewrite (message_dispatch _ _ _ _ _ _ _ _ _ _ _ Hpre Hparse Hsel Hlook Hrun).
  unfold route.
  destruct (select_cmds_Some _ _ Hsel) as [[-> _]|(-> & -> & _)]; [done|].
  simpl. by destruct (String.eqb _ "help").
Qed.

Lemma C2_none_result_is_sent_witness :
  message sample_world sample_config
    (room_message "alice" "!help vup vdown") init_state
  = (Ok tt, init_state,
     [SendMessage (ToJID (mkJID "room@conference.example.org" "alice"))
        PNone "chat"]).
Proof.
  apply (C2_none_result_is_sent sample_world sample_config
           (room_message "alice" "!help vup vdown") init_state
           "!help" ["vup"; "vdown"] _muc_cmds H_help init_state []);
    reflexivity.
Defined.

(** ** Dispatcher: routing of answers from the room (C7) *)

(** C7.  For a command resolved in the room's table, the answer goes to
    the bare address of the room as a groupchat message, except for
    [help], whose answer goes as a chat message to the full address the
    request came from. *)
Theorem C7_group_routing W cfg (msg : Message) (st : BotState)
    first args h resp st' tr :
  PyStr.startswith (msg_body msg) _CMD_PREFIX = true →
  parse_body (msg_body msg) = first :: args →
  msg_type msg = "groupchat" →
  _muc_cmds !! PyStr.slice_from 1 first = Some h →
  run_handler W cfg h msg args st = (Ok resp, st', tr) →
  message W cfg msg st =
    (Ok tt, st',
     tr ++ [if String.eqb (PyStr.slice_from 1 first) "help"
            then SendMessage (ToJID (msg_from msg)) resp "chat"
            else SendMessage (ToBare (bare (msg_from msg))) resp "groupchat"]).
Proof.
  intros Hpre Hparse Htype Hlook Hrun.
  assert (Hsel : select_cmds (msg_type msg) = Some _muc_cmds)
    by (rewrite Htype; apply select_cmds_groupchat).
  rewrite (message_dispatch _ _ _ _ _ _ _ _ _ _ _ Hpre Hparse Hsel Hlook Hrun).
  unfold route. rewrite Htype. simpl.
  by destruct (String.eqb _ "help").
Qed.

Lemma C7_group_routing_witness :
  message sample_world sample_config
    (room_message "alice" "!hug bob") init_state
  = (Ok tt, init_state,
     [SendMessage (ToBare "room@conference.example.org")
        (PStr "/me hugs bob") "groupchat"])
  ∧ message sample_world sample_config
      (room_message "alice" "!help kiss extra") init_state
    = (Ok tt, init_state,
       [SendMessage (ToJID (mkJID "room@conference.example.org" "alice"))
          PNone "chat"]).
Proof.
  split.
  - apply (C7_group_routing sample_world sample_config
             (room_message "alice" "!hug bob") init_state
             "!hug" ["bob"] H_hug (PStr "/me hugs bob") init_state []);
      reflexivity.
  - apply (C7_group_routing sample_world sample_config
             (room_message "alice" "!help kiss extra") init_state
             "!help" ["kiss"; "extra"] H_help PNone init_state []);
      reflexivity.
Defined.

(** ** The voting session (C3, C5, C10) *)

Ltac run_vote :=
  unfold _vote_start, _vote_up, _vote_down, _vote_stat, _vote_end,
    bind, get_state, put_state, ret, state_of, result_of, trace_of;
  simpl.

Lemma vote_up_idle msg args st :
  subject_truthy (vote_subject st) = false →
  _vote_up msg args st = (Ok (Some _NO_VOTINGS_MESSAGE), st, []).
Proof. intros H. run_vote. by rewrite H. Qed.

Lemma vote_down_idle msg args st :
  subject_truthy (vote_subject st) = false →
  _vote_down msg args st = (Ok (Some _NO_VOTINGS_MESSAGE), st, []).
Proof. intros H. run_vote. by rewrite H. Qed.

Lemma vote_up_disjoint msg args st :
  disjoint_votes st → disjoint_votes (state_of (_vote_up msg args st)).
Proof.
  unfold disjoint_votes. intros Hd. run_vote.
  destruct (subject_truthy (vote_subject st)); simpl; [|done].
  repeat case_bool_decide; simpl; set_solver.
Qed.

Lemma vote_down_disjoint msg args st :
  disjoint_votes st → disjoint_votes (state_of (_vote_down msg args st)).
Proof.
  unfold disjoint_votes. intros Hd. run_vote.
  destruct (subject_truthy (vote_subject st)); simpl; [|done].
  repeat case_bool_decide; simpl; set_solver.
Qed.

Lemma vote_start_keeps_sets msg args st :
  votes_up (state_of (_vote_start msg args st)) = votes_up st
  ∧ votes_down (state_of (_vote_start msg args st)) = votes_down st.
Proof.
  run_vote. destruct (subject_truthy (vote_subject st)); [done|].
  by destruct args.
Qed.

Lemma vote_stat_pure msg args st :
  state_of (_vote_stat msg args st) = st ∧ trace_of (_vote_stat msg args st) = [].
Proof. run_vote. by destruct (subject_truthy (vote_subject st)). Qed.

Lemma vote_end_disjoint msg args st :
  disjoint_votes st → disjoint_votes (state_of (_vote_end msg args st)).
Proof.
  unfold disjoint_votes. intros Hd. run_vote.
  destruct (subject_truthy (vote_subject st)); simpl; [set_solver|done].
Qed.

Lemma vote_up_subject msg args st :
  vote_subject (state_of (_vote_up msg args st)) = vote_subject st.
Proof.
  run_vote. destruct (subject_truthy (vote_subject st)); simpl; [|done].
  by case_bool_decide.
Qed.

Lemma vote_down_subject msg args st :
  vote_subject (state_of (_vote_down msg args st)) = vote_subject st.
Proof.
  run_vote. destruct (subject_truthy (vote_subject st)); simpl; [|done].
  by case_bool_decide.
Qed.

(** After a vote up, the voter is on the up side only. *)
Lemma vote_up_member msg args st :
  subject_truthy (vote_subject st) = true →
  disjoint_votes st →
  let st1 := state_of (_vote_up msg args st) in
  resource (msg_from msg) ∈ votes_up st1
  ∧ resource (msg_from msg) ∉ votes_down st1.
Proof.
  unfold disjoint_votes. intros Hs Hd. run_vote. rewrite Hs. simpl.
  repeat case_bool_decide; simpl; set_solver.
Qed.

(** After a vote down, the voter is on the down side only. *)
Lemma vote_down_member msg args st :
  subject_truthy (vote_subject st) = true →
  disjoint_votes st →
  let st1 := state_of (_vote_down msg args st) in
  resource (msg_from msg) ∈ votes_down st1
  ∧ resource (msg_from msg) ∉ votes_up st1.
Proof.
  unfold disjoint_votes. intros Hs Hd. run_vote. rewrite Hs. simpl.
  repeat case_bool_decide; simpl; set_solver.
Qed.

(** C3 as stated fails where no vote is running: both calls only answer
    that there is no voting and change nothing.  In the fresh session
    the voter ends on neither side; in an idle state that still lists
    the voter as an up voter, the voter stays there. *)
Lemma C3_idle_counterexample :
  let msg := room_message "alice" "!vup" in
  let twice := λ st,
    state_of (_vote_down msg [] (state_of (_vote_up msg [] st))) in
  let stale := {| vote_subject := None; votes_up := {["alice"]};
                  votes_down := ∅ |} in
  disjoint_votes init_state
  ∧ twice init_state = init_state
  ∧ (resource (msg_from msg) ∉ votes_down (twice init_state))
  ∧ disjoint_votes stale
  ∧ resource (msg_from msg) ∈ votes_up (twice stale)
  ∧ resource (msg_from msg) ∉ votes_down (twice stale).
Proof.
  intros msg twice stale.
  assert (Hidle : ∀ st, subject_truthy (vote_subject st) = false →
                        twice st = st).
  { intros st Hst. unfold twice. rewrite vote_up_idle by done.
    unfold state_of at 2. simpl. by rewrite vote_down_idle. }
  rewrite !Hidle by done.
  unfold disjoint_votes, stale. simpl. set_solver.
Qed.

(** C3, amended.  From a state whose two sets are disjoint, each of vote
    up, vote down, start, stat and end leaves them disjoint; and while a
    vote is running, a vote up followed by a vote down by the same
    nickname leaves that nickname among the down voters only. *)
Theorem C3_votes_stay_disjoint (msg : Message) (args : list string)
    (st : BotState) :
  disjoint_votes st →
  disjoint_votes (state_of (_vote_up msg args st))
  ∧ disjoint_votes (state_of (_vote_down msg args st))
  ∧ disjoint_votes (state_of (_vote_start msg args st))
  ∧ disjoint_votes (state_of (_vote_stat msg args st))
  ∧ disjoint_votes (state_of (_vote_end msg args st))
  ∧ (subject_truthy (vote_subject st) = true →
     let st2 :=
       state_of (_vote_down msg args (state_of (_vote_up msg args st))) in
     resource (msg_from msg) ∈ votes_down st2
     ∧ resource (msg_from msg) ∉ votes_up st2).
Proof.
  intros Hd. split_and!.
  - by apply vote_up_disjoint.
  - by apply vote_down_disjoint.
  - unfold disjoint_votes.
    by destruct (vote_start_keeps_sets msg args st) as [-> ->].
  - by destruct (vote_stat_pure msg args st) as [-> _].
  - by apply vote_end_disjoint.
  - intros Hs. apply vote_down_member.
    + by rewrite vote_up_subject.
    + by apply vote_up_disjoint.
Qed.

Lemma C3_votes_stay_disjoint_witness :
  let msg := room_message "alice" "!vup" in
  let st := {| vote_subject := Some "Pizza?"; votes_up := {["bob"]};
               votes_down := {["carol"]} |} in
  let st2 := state_of (_vote_down msg [] (state_of (_vote_up msg [] st))) in
  resource (msg_from msg) ∈ votes_down st2
  ∧ resource (msg_from msg) ∉ votes_up st2.
Proof.
  intros msg st.
  assert (Hd : disjoint_votes st).
  { unfold disjoint_votes, st. simpl. set_solver. }
  exact (proj2 (proj2 (proj2 (proj2 (proj2
           (C3_votes_stay_disjoint msg [] st Hd))))) eq_refl).
Defined.

(** The three ways of [_vote_start], by its own two tests: the truth of
    the current subject, then the emptiness of the argument tuple. *)
Lemma vote_start_cases (msg : Message) (args : list string) (st : BotState) :
  (subject_truthy (vote_subject st) = true →
   _vote_start msg args st = (Ok (Some "A vote is already running"), st, []))
  ∧ (subject_truthy (vote_subject st) = false → args = [] →
     _vote_start msg args st
     = (Ok (Some "No subject given. Use vstart <subject>"), st, []))
  ∧ (subject_truthy (vote_subject st) = false → args ≠ [] →
     _vote_start msg args st
     = (Ok (Some "Voting started"),
        {| vote_subject := Some (PyStr.join " " args);
           votes_up := votes_up st; votes_down := votes_down st |},
        [])).
Proof.
  split_and!; intros Hs; run_vote; rewrite Hs.
  - done.
  - by intros ->.
  - by destruct args.
Qed.

Lemma vote_end_running msg args st s :
  vote_subject st = Some s → s ≠ EmptyString →
  _vote_end msg args st
  = (Ok (Some (end_text s (size (votes_up st)) (size (votes_down st)))),
     init_state, []).
Proof.
  intros Hs Hne. run_vote. rewrite Hs. simpl.
  by destruct s.
Qed.

Lemma vote_end_idle msg args st :
  subject_truthy (vote_subject st) = false →
  _vote_end msg args st = (Ok (Some _NO_VOTINGS_MESSAGE), st, []).
Proof. intros H. run_vote. by rewrite H. Qed.

Lemma vote_stat_idle msg args st :
  subject_truthy (vote_subject st) = false →
  _vote_stat msg args st = (Ok (Some _NO_VOTINGS_MESSAGE), st, []).
Proof. intros H. run_vote. by rewrite H. Qed.

(** C5.  In a fresh session, after start X, a vote up by a and a vote
    down by b, end answers with subject X and the counts 1 and 1 and
    leaves the session empty, so that stat then answers that there is no
    voting; in general end of a running vote reports its subject and the
    two cardinalities and empties the session, and end without a running
    vote only answers that there is no voting. *)
Theorem C5_vote_end (m ma mb : Message) :
  resource (msg_from ma) = "a" →
  resource (msg_from mb) = "b" →
  let s1 := state_of (_vote_start m ["X"] init_state) in
  let s2 := state_of (_vote_up ma [] s1) in
  let s3 := state_of (_vote_down mb [] s2) in
  _vote_end m [] s3
    = (Ok (Some ("Voting " +:+ PyStr.dq +:+ "X" +:+ PyStr.dq
                 +:+ " ended. 1 votes up. 1 votes down")),
       init_state, [])
  ∧ _vote_stat m [] (state_of (_vote_end m [] s3))
    = (Ok (Some _NO_VOTINGS_MESSAGE), init_state, [])
  ∧ (∀ st s, vote_subject st = Some s → s ≠ EmptyString →
       _vote_end m [] st
       = (Ok (Some (end_text s (size (votes_up st)) (size (votes_down st)))),
          init_state, []))
  ∧ (∀ st, subject_truthy (vote_subject st) = false →
       _vote_end m [] st = (Ok (Some _NO_VOTINGS_MESSAGE), st, [])).
Proof.
  intros Ha Hb s1 s2 s3.
  assert (Hend : _vote_end m [] s3
                 = (Ok (Some (end_text "X" 1 1)), init_state, [])).
  { subst s1 s2 s3. run_vote. rewrite Ha, Hb. by vm_compute. }
  split_and!.
  - exact Hend.
  - rewrite Hend. by apply vote_stat_idle.
  - intros st s. apply vote_end_running.
  - intros st. apply vote_end_idle.
Qed.

Lemma C5_vote_end_witness :
  let m := room_message "alice" "!vend" in
  let s1 := state_of (_vote_start m ["X"] init_state) in
  let s2 := state_of (_vote_up (room_message "a" "!vup") [] s1) in
  let s3 := state_of (_vote_down (room_message "b" "!vdown") [] s2) in
  _vote_end m [] s3
  = (Ok (Some ("Voting " +:+ PyStr.dq +:+ "X" +:+ PyStr.dq
               +:+ " ended. 1 votes up. 1 votes down")),
     init_state, []).
Proof.
  exact (proj1 (C5_vote_end (room_message "alice" "!vend")
                  (room_message "a" "!vup") (room_message "b" "!vdown")
                  eq_refl eq_refl)).
Defined.

(** *** Which handlers touch the session (C10) *)

Lemma keeps_ret {A} (a : A) : keeps_state (ret a).
Proof. done. Qed.

Lemma keeps_raise {A} (e : exn) : keeps_state (@raise A e).
Proof. done. Qed.

Lemma keeps_emit ev : keeps_state (emit ev).
Proof. done. Qed.

Lemma keeps_lift {A} (r : Result A) : keeps_state (lift r).
Proof. done. Qed.

Lemma keeps_get : keeps_state get_state.
Proof. done. Qed.

Lemma keeps_bind {A B} (m : M A) (k : A → M B) :
  keeps_state m → (∀ a, keeps_state (k a)) → keeps_state (bind m k).
Proof.
  intros Hm Hk st. unfold bind, state_of.
  specialize (Hm st). unfold state_of in Hm.
  destruct (m st) as [[[a|e] st1] tr1]; simpl in *; subst; [|done].
  specialize (Hk a st). unfold state_of in Hk.
  by destruct (k a st) as [[r st2] tr2].
Qed.

Lemma keeps_read_local {A} (v : option A) : keeps_state (read_local v).
Proof. destruct v; [apply keeps_ret | apply keeps_raise]. Qed.

(** Seeing the answer as a value changes neither session nor trace. *)
Lemma answer_ok m st r st' tr :
  m st = (Ok r, st', tr) → answer m st = (Ok (as_value r), st', tr).
Proof.
  intros E. unfold answer, bind, ret. rewrite E. by rewrite app_nil_r.
Qed.

Lemma answer_raise m st e st' tr :
  m st = (Raise e, st', tr) → answer m st = (Raise e, st', tr).
Proof. intros E. unfold answer, bind. by rewrite E. Qed.

Lemma state_of_answer m st : state_of (answer m st) = state_of (m st).
Proof.
  destruct (m st) as [[[r|e] st'] tr] eqn:E.
  - by rewrite (answer_ok _ _ _ _ _ E).
  - by rewrite (answer_raise _ _ _ _ _ E).
Qed.

Lemma trace_of_answer m st : trace_of (answer m st) = trace_of (m st).
Proof.
  destruct (m st) as [[[r|e] st'] tr] eqn:E.
  - by rewrite (answer_ok _ _ _ _ _ E).
  - by rewrite (answer_raise _ _ _ _ _ E).
Qed.

Lemma keeps_answer m : keeps_state m → keeps_state (answer m).
Proof. intros Hm st. by rewrite state_of_answer. Qed.

Create HintDb keeps.
#[local] Hint Resolve keeps_ret keeps_raise keeps_emit keeps_lift keeps_get
  keeps_read_local : keeps.

(** Walks a handler body: binds are split, branches are taken apart. *)
Ltac keeps_step :=
  match goal with
  | |- keeps_state (bind _ _) => apply keeps_bind; [|intros]
  | |- keeps_state (match ?x with _ => _ end) => destruct x
  | |- keeps_state (if ?b then _ else _) => destruct b
  | |- keeps_state (let _ := _ in _) => cbv zeta
  | |- keeps_state _ => solve [auto with keeps]
  end.

Ltac solve_keeps := repeat keeps_step.

Lemma keeps_requests_get W url params : keeps_state (requests_get W url params).
Proof. unfold requests_get. solve_keeps. Qed.

Lemma keeps_response_json r : keeps_state (response_json r).
Proof. unfold response_json. solve_keeps. Qed.

Lemma keeps_read_stripped W name : keeps_state (read_stripped W name).
Proof. unfold read_stripped. solve_keeps. Qed.

#[local] Hint Resolve keeps_requests_get keeps_response_json
  keeps_read_stripped : keeps.

Lemma keeps_help W msg args : keeps_state (_help W msg args).
Proof. unfold _help. solve_keeps. Qed.

Lemma keeps_shorten_url W cfg msg args :
  keeps_state (_shorten_url W cfg msg args).
Proof. unfold _shorten_url. solve_keeps. Qed.

#[local] Hint Resolve keeps_shorten_url : keeps.

Lemma keeps_chuck_norris W msg args : keeps_state (_chuck_norris W msg args).
Proof. unfold _chuck_norris, chuck_fetch. solve_keeps. Qed.

Lemma keeps_wikipedia W cfg msg args : keeps_state (_wikipedia W cfg msg args).
Proof. unfold _wikipedia. solve_keeps. Qed.

Lemma keeps_slap W msg args : keeps_state (_slap W msg args).
Proof. unfold _slap. solve_keeps. Qed.

Lemma keeps_taunt W msg args : keeps_state (_taunt W msg args).
Proof. unfold _taunt. solve_keeps. Qed.

Lemma keeps_meal msg args : keeps_state (_meal msg args).
Proof. unfold _meal. solve_keeps. Qed.

Lemma keeps_hug msg args : keeps_state (_hug msg args).
Proof. unfold _hug. solve_keeps. Qed.

Lemma keeps_kiss msg args : keeps_state (_kiss msg args).
Proof. unfold _kiss. solve_keeps. Qed.

(** C10.  Stat changes nothing and reaches nothing outside; vote up and
    vote down leave the subject as it was; and of all the handlers in the
    two tables only start and end can change the subject. *)
Theorem C10_subject_frame W cfg (msg : Message) (args : list string)
    (st : BotState) :
  state_of (_vote_stat msg args st) = st
  ∧ vote_subject (state_of (_vote_up msg args st)) = vote_subject st
  ∧ vote_subject (state_of (_vote_down msg args st)) = vote_subject st
  ∧ (∀ h, h ≠ H_vote_start → h ≠ H_vote_end →
       vote_subject (state_of (run_handler W cfg h msg args st))
       = vote_subject st).
Proof.
  split_and!.
  - apply vote_stat_pure.
  - apply vote_up_subject.
  - apply vote_down_subject.
  - intros h Hstart Hend.
    destruct h; cbn [run_handler]; rewrite ?state_of_answer;
      first
        [ done
        | apply vote_up_subject
        | apply vote_down_subject
        | f_equal;
          first
            [ apply keeps_help | apply keeps_chuck_norris
            | apply keeps_shorten_url | apply keeps_wikipedia
            | apply keeps_taunt | apply vote_stat_pure | apply keeps_slap
            | apply keeps_meal | apply keeps_hug | apply keeps_kiss ] ].
Qed.

Lemma C10_subject_frame_witness :
  let st := {| vote_subject := Some "Pizza?"; votes_up := {["bob"]};
               votes_down := ∅ |} in
  vote_subject (state_of (run_handler sample_world sample_config H_vote_down
                            (room_message "bob" "!vdown") [] st))
  = Some "Pizza?".
Proof.
  intros st.
  refine (proj2 (proj2 (proj2
            (C10_subject_frame sample_world sample_config
               (room_message "bob" "!vdown") [] st)))
            H_vote_down _ _); discriminate.
Defined.

(** *** Reachable sessions *)

(** In a session that satisfies the invariant, the running-vote test is
    false only when there is no subject at all. *)
Lemma session_ok_truthy st :
  session_ok st → subject_truthy (vote_subject st) = false →
  vote_subject st = None.
Proof.
  intros (_ & _ & Hs) Ht. destruct (vote_subject st) as [s|] eqn:E; [|done].
  specialize (Hs s eq_refl). by destruct s.
Qed.

Lemma state_of_bind_keeps {A B} (m : M A) (k : A → M B) st :
  (∀ a, keeps_state (k a)) → state_of (bind m k st) = state_of (m st).
Proof.
  intros Hk. unfold bind, state_of.
  destruct (m st) as [[[a|e] st1] tr1]; [|done].
  specialize (Hk a st1). unfold state_of in Hk.
  by destruct (k a st1) as [[r st2] tr2].
Qed.

Lemma bind_ret_l {A B} (a : A) (k : A → M B) st : bind (ret a) k st = k a st.
Proof. unfold bind, ret. by destruct (k a st) as [[??]?]. Qed.

Lemma keeps_route msg cmd resp : keeps_state (route msg cmd resp).
Proof. unfold route. solve_keeps. Qed.

(** The dispatcher changes the session only through the handler it
    calls, and calls it on the tokens of the body. *)
Lemma message_state W cfg msg st :
  state_of (message W cfg msg st) = st
  ∨ ∃ first args h,
      parse_body (msg_body msg) = first :: args
      ∧ state_of (message W cfg msg st)
        = state_of (run_handler W cfg h msg args st).
Proof.
  unfold message.
  destruct (PyStr.startswith _ _); [|by left]. cbn [negb].
  destruct (parse_body (msg_body msg)) as [|first args] eqn:Hparse; [by left|].
  destruct (select_cmds (msg_type msg)) as [table|]; [|by left].
  cbn [read_local]. rewrite bind_ret_l.
  destruct (table !! _) as [h|]; [|by left].
  right. exists first, args, h. split; [done|].
  apply state_of_bind_keeps. intros resp. apply keeps_route.
Qed.

(** Every handler keeps the invariant, as long as its arguments are not
    all blank. *)
Lemma session_ok_handler W cfg h msg args st :
  args = [] ∨ PyStr.isblank (PyStr.join " " args) = false →
  session_ok st →
  session_ok (state_of (run_handler W cfg h msg args st)).
Proof.
  intros Hargs Hok.
  destruct (decide (h = H_vote_start)) as [->|Hns].
  { cbn [run_handler]. rewrite ?state_of_answer. run_vote.
    destruct (subject_truthy (vote_subject st)) eqn:Ht; [done|].
    destruct args as [|a args]; [done|]. simpl.
    destruct Hargs as [|Hnb]; [done|].
    destruct Hok as (Hd & _ & _). split_and!; [done|done|].
    simpl. by intros s [= <-]. }
  destruct (decide (h = H_vote_end)) as [->|Hne].
  { cbn [run_handler]. rewrite ?state_of_answer. run_vote.
    destruct (subject_truthy (vote_subject st)); [|done]. simpl.
    split_and!; [|done..]. unfold disjoint_votes. simpl. set_solver. }
  destruct (decide (h = H_vote_up)) as [->|Hnu].
  { cbn [run_handler]. rewrite ?state_of_answer.
    destruct (subject_truthy (vote_subject st)) eqn:Ht.
    - destruct Hok as (Hd & Hb & Hs). split_and!.
      + by apply vote_up_disjoint.
      + rewrite vote_up_subject. intros E. by rewrite E in Ht.
      + by rewrite vote_up_subject.
    - by rewrite vote_up_idle. }
  destruct (decide (h = H_vote_down)) as [->|Hnd].
  { cbn [run_handler]. rewrite ?state_of_answer.
    destruct (subject_truthy (vote_subject st)) eqn:Ht.
    - destruct Hok as (Hd & Hb & Hs). split_and!.
      + by apply vote_down_disjoint.
      + rewrite vote_down_subject. intros E. by rewrite E in Ht.
      + by rewrite vote_down_subject.
    - by rewrite vote_down_idle. }
  replace (state_of (run_handler W cfg h msg args st)) with st; [done|].
  symmetry.
  destruct h; cbn [run_handler]; rewrite ?state_of_answer; try done;
    first [ apply keeps_help | apply keeps_chuck_norris
          | apply keeps_shorten_url | apply keeps_wikipedia
          | apply keeps_taunt | apply vote_stat_pure | apply keeps_slap
          | apply keeps_meal | apply keeps_hug | apply keeps_kiss ].
Qed.

Lemma session_ok_init : session_ok init_state.
Proof.
  unfold session_ok, disjoint_votes. simpl. split_and!; [set_solver|done..].
Qed.

Lemma session_ok_message W cfg msg st :
  session_ok st → session_ok (state_of (message W cfg msg st)).
Proof.
  intros Hok.
  destruct (message_state W cfg msg st)
    as [->|(first & args & h & Hparse & ->)]; [done|].
  apply session_ok_handler; [|done].
  destruct args as [|a args]; [by left|right].
  by eapply parsed_args_not_blank.
Qed.

(** Whatever messages arrive, the two voter sets stay disjoint, they are
    empty while no subject is set, and the subject is never blank. *)
Lemma reachable_session_ok W cfg st : reachable W cfg st → session_ok st.
Proof.
  induction 1 as [|st msg _ IH].
  - apply session_ok_init.
  - by apply session_ok_message.
Qed.

(** *** Starting a vote (C4) *)

(** In a reachable session a subject is set exactly when the test of the
    running vote is true. *)
Lemma reachable_subject_truthy W cfg st s :
  reachable W cfg st → vote_subject st = Some s →
  subject_truthy (vote_subject st) = true.
Proof.
  intros Hreach Hs. apply reachable_session_ok in Hreach.
  destruct Hreach as (_ & _ & Hblank). specialize (Hblank s Hs).
  rewrite Hs. by destruct s.
Qed.

(** C4.  For every argument list the dispatcher passes on, in every
    session the bot can reach: start answers that a vote is already
    running whenever a subject is set, whatever the arguments; with no
    subject set it answers that no subject was given whenever the
    proposed subject, the arguments joined by single spaces, is blank;
    and otherwise it sets the subject to the joined arguments, leaves
    the voter sets alone and confirms that the voting started. *)
Theorem C4_vote_start_dispatched W cfg (msg : Message) (st : BotState)
    (first : string) (args : list string) :
  reachable W cfg st →
  parse_body (msg_body msg) = first :: args →
  (∀ s, vote_subject st = Some s →
        _vote_start msg args st
        = (Ok (Some "A vote is already running"), st, []))
  ∧ (vote_subject st = None →
     PyStr.isblank (PyStr.join " " args) = true →
     _vote_start msg args st
     = (Ok (Some "No subject given. Use vstart <subject>"), st, []))
  ∧ (vote_subject st = None →
     PyStr.isblank (PyStr.join " " args) = false →
     _vote_start msg args st
     = (Ok (Some "Voting started"),
        {| vote_subject := Some (PyStr.join " " args);
           votes_up := votes_up st; votes_down := votes_down st |},
        [])).
Proof.
  intros Hreach Hparse.
  destruct (vote_start_cases msg args st) as (Hrunning & Hempty & Hstart).
  split_and!.
  - intros s Hs. apply Hrunning. by eapply reachable_subject_truthy.
  - intros Hnone Hblank. apply Hempty; [by rewrite Hnone|].
    destruct args as [|a args]; [done|].
    by rewrite (parsed_args_not_blank _ _ _ Hparse) in Hblank.
  - intros Hnone Hblank. apply Hstart; [by rewrite Hnone|].
    by intros ->.
Qed.

Lemma C4_vote_start_dispatched_witness :
  let earlier := room_message "bob" "!vstart Sushi?" in
  let msg := room_message "alice" "!vstart Pizza tonight?" in
  let empty := room_message "alice" "!vstart  " in
  let running := state_of (message sample_world sample_config earlier
                             init_state) in
  vote_subject running = Some "Sushi?"
  ∧ _vote_start msg ["Pizza"; "tonight?"] running
    = (Ok (Some "A vote is already running"), running, [])
  ∧ _vote_start empty [] init_state
    = (Ok (Some "No subject given. Use vstart <subject>"), init_state, [])
  ∧ _vote_start msg ["Pizza"; "tonight?"] init_state
    = (Ok (Some "Voting started"),
       {| vote_subject := Some "Pizza tonight?"; votes_up := ∅;
          votes_down := ∅ |}, []).
Proof.
  intros earlier msg empty running. split_and!.
  - reflexivity.
  - refine (proj1 (C4_vote_start_dispatched sample_world sample_config msg
                     running "!vstart" ["Pizza"; "tonight?"] _ eq_refl)
              "Sushi?" eq_refl).
    apply reachable_message, reachable_init.
  - refine (proj1 (proj2 (C4_vote_start_dispatched sample_world
                     sample_config empty init_state "!vstart" [] _ eq_refl))
              eq_refl eq_refl).
    apply reachable_init.
  - refine (proj2 (proj2 (C4_vote_start_dispatched sample_world
                     sample_config msg init_state "!vstart"
                     ["Pizza"; "tonight?"] _ eq_refl))
              eq_refl eq_refl).
    apply reachable_init.
Defined.

(** ** Formatting handlers: kiss (C8) *)

(** C8.  Kiss answers with a prompt when it has no argument, with the
    one-name action for exactly one argument, with the name-and-place
    action for exactly two, and with an error text for three or more; it
    always returns a text, raises nothing, and touches neither the
    session nor the outside. *)
Theorem C8_kiss_cases (msg : Message) (st : BotState) :
  _kiss msg [] st = (Ok (Some "Who should I kiss?"), st, [])
  ∧ (∀ x, _kiss msg [x] st
          = (Ok (Some ("/me kisses " +:+ x +:+ " :-*")), st, []))
  ∧ (∀ x y, _kiss msg [x; y] st
            = (Ok (Some ("/me kisses " +:+ x +:+ " on the " +:+ y +:+ " :-*")),
               st, []))
  ∧ (∀ args, 3 ≤ length args →
       _kiss msg args st = (Ok (Some "Too many arguments"), st, []))
  ∧ (∀ args, ∃ text, _kiss msg args st = (Ok (Some text), st, [])).
Proof.
  split_and!; try done.
  - intros [|x [|y [|z rest]]] Hlen; simpl in Hlen; try lia. done.
  - intros [|x [|y [|z rest]]]; eexists; reflexivity.
Qed.

Lemma C8_kiss_cases_witness :
  _kiss (room_message "alice" "!kiss bob the left cheek")
        ["bob"; "the"; "left"; "cheek"] init_state
  = (Ok (Some "Too many arguments"), init_state, []).
Proof.
  apply (proj1 (proj2 (proj2 (proj2
           (C8_kiss_cases (room_message "alice" "!kiss bob the left cheek")
              init_state))))).
  simpl. lia.
Defined.

(** ** URL shortener (C9) *)

Lemma requests_get_ok W url params st r :
  http_get W url params = Some r →
  requests_get W url params st = (Ok r, st, [HttpGet url params]).
Proof. intros E. unfold requests_get, bind, emit, ret. by rewrite E. Qed.

Lemma requests_get_fail W url params st :
  http_get W url params = None →
  requests_get W url params st
  = (Raise RequestException, st, [HttpGet url params]).
Proof. intros E. unfold requests_get, bind, emit, raise. by rewrite E. Qed.

(** C9 as stated fails on two tokens: the request carries the tuple of
    tokens as its url parameter, not one string joined by spaces. *)
Lemma C9_unjoined_tokens_counterexample :
  let msg := room_message "alice" "!surl http://example.org/a b" in
  let args := ["http://example.org/a"; "b"] in
  let tr := trace_of (_shorten_url sample_world sample_config msg
                        (PStr <$> args) init_state) in
  parse_body (msg_body msg) = "!surl" :: args
  ∧ tr = [HttpGet (surl_api sample_config)
            (Some (surl_params sample_config
                     (PTuple [PStr "http://example.org/a"; PStr "b"])))]
  ∧ tr ≠ [HttpGet (surl_api sample_config)
            (Some (surl_params sample_config
                     (PStr (PyStr.join " " args))))].
Proof. vm_compute. repeat split; discriminate. Qed.

(** C9, amended.  Without arguments the shortener handler answers with a
    prompt and makes no HTTP call.  With one or more tokens it makes
    exactly one call to the shortener API, passing the tokens as they
    are, as a tuple, for the url parameter; when the status of the answer
    is not 200 it returns the fixed failure text, and when it is 200 and
    the JSON body has a title and a short URL it returns the title, a
    colon and a space, and the short URL. *)
Theorem C9_shorten_url_cases W cfg (msg : Message) (args : list string)
    (st : BotState) :
  let params := Some (surl_params cfg (PTuple (PStr <$> args))) in
  let run := _shorten_url W cfg msg (PStr <$> args) st in
  (args = [] → run = (Ok (Some "You must provide a URL to shorten"), st, []))
  ∧ (args ≠ [] → trace_of run = [HttpGet (surl_api cfg) params])
  ∧ (args ≠ [] → ∀ r,
       http_get W (surl_api cfg) params = Some r →
       status_code r ≠ 200 →
       run = (Ok (Some "Something went wrong :("), st,
              [HttpGet (surl_api cfg) params]))
  ∧ (args ≠ [] → ∀ r js title short,
       http_get W (surl_api cfg) params = Some r →
       status_code r = 200 →
       json r = Some js →
       getitem js "title" = Ok (PStr title) →
       getitem js "shorturl" = Ok (PStr short) →
       run = (Ok (Some (title +:+ ": " +:+ short)), st,
              [HttpGet (surl_api cfg) params])).
Proof.
  intros params run. subst params run. split_and!.
  - by intros ->.
  - intros Hne. destruct args as [|a args]; [done|]. clear Hne.
    cbn [fmap list_fmap]. unfold _shorten_url. fold (surl_params cfg).
    set (params := Some (surl_params cfg _)).
    destruct (http_get W (surl_api cfg) params) as [r|] eqn:Hget.
    + rewrite (bind_ok _ _ _ _ _ _ (requests_get_ok _ _ _ _ _ Hget)).
      unfold trace_of. cbn [snd].
      destruct (status_code r =? 200); [|done].
      unfold response_json, bind, lift, ret.
      destruct (json r) as [js|]; [|done].
      destruct (getitem js "title"); [|done].
      by destruct (getitem js "shorturl").
    + by rewrite (bind_raise _ _ _ _ _ _ (requests_get_fail _ _ _ _ Hget)).
  - intros Hne r Hget Hstatus. destruct args as [|a args]; [done|].
    cbn [fmap list_fmap] in *. unfold _shorten_url. fold (surl_params cfg).
    rewrite (bind_ok _ _ _ _ _ _ (requests_get_ok _ _ _ _ _ Hget)).
    apply Nat.eqb_neq in Hstatus. by rewrite Hstatus.
  - intros Hne r js title short Hget Hstatus Hjs Ht Hs.
    destruct args as [|a args]; [done|].
    cbn [fmap list_fmap] in *. unfold _shorten_url. fold (surl_params cfg).
    rewrite (bind_ok _ _ _ _ _ _ (requests_get_ok _ _ _ _ _ Hget)).
    rewrite Hstatus. cbn [Nat.eqb].
    unfold response_json, bind, lift, ret. by rewrite Hjs, Ht, Hs.
Qed.

Lemma C9_shorten_url_cases_witness :
  let msg := room_message "alice" "!surl http://example.org/a" in
  let params :=
    Some (surl_params sample_config (PTuple [PStr "http://example.org/a"])) in
  _shorten_url sample_world sample_config msg [] init_state
    = (Ok (Some "You must provide a URL to shorten"), init_state, [])
  ∧ _shorten_url sample_world sample_config msg
      [PStr "http://example.org/a"] init_state
    = (Ok (Some "Example: http://kurzma.ch/1"), init_state,
       [HttpGet (surl_api sample_config) params])
  ∧ _shorten_url failing_world sample_config msg
      [PStr "http://example.org/a"] init_state
    = (Ok (Some "Something went wrong :("), init_state,
       [HttpGet (surl_api sample_config) params]).
Proof.
  intros msg params. split_and!.
  - exact (proj1 (C9_shorten_url_cases sample_world sample_config msg []
                    init_state) eq_refl).
  - refine (proj2 (proj2 (proj2
              (C9_shorten_url_cases sample_world sample_config msg
                 ["http://example.org/a"] init_state)))
              _ _ _ "Example" "http://kurzma.ch/1" eq_refl eq_refl eq_refl
              eq_refl eq_refl).
    discriminate.
  - refine (proj1 (proj2 (proj2
              (C9_shorten_url_cases failing_world sample_config msg
                 ["http://example.org/a"] init_state)))
              _ _ eq_refl _); [discriminate | simpl; lia].
Defined.

(** ** The help listing (C6) *)

Lemma sorted_keys_sorted table : StronglySorted String.le (sorted_keys table).
Proof. unfold sorted_keys. apply StronglySorted_merge_sort; apply _. Qed.

Lemma sorted_keys_NoDup table : NoDup (sorted_keys table).
Proof.
  unfold sorted_keys. rewrite merge_sort_Permutation.
  apply NoDup_fst_map_to_list.
Qed.

Lemma elem_of_sorted_keys (table : gmap string Handler) c :
  c ∈ sorted_keys table ↔ is_Some (table !! c).
Proof.
  unfold sorted_keys. rewrite merge_sort_Permutation, list_elem_of_fmap.
  split.
  - intros ([k h] & -> & Hin). apply elem_of_map_to_list in Hin. by exists h.
  - intros [h Hh]. exists (c, h). split; [done|]. by apply elem_of_map_to_list.
Qed.

Lemma StronglySorted_filter_keep {A} (R : relation A) (P : A → Prop)
    `{∀ x, Decision (P x)} (l : list A) :
  StronglySorted R l → StronglySorted R (filter P l).
Proof.
  induction 1 as [|x l Hl IH Hx]; [constructor|].
  rewrite filter_cons. case_decide; [|done].
  constructor; [done|].
  rewrite Forall_forall in Hx |- *. intros y Hy.
  apply list_elem_of_filter in Hy as [_ Hy]. by apply Hx.
Qed.

Lemma omap_of_filter {A B} (f : A → option B) (l : list A) :
  Forall2 (λ x y, f x = Some y) (filter (λ x, is_Some (f x)) l) (omap f l).
Proof.
  induction l as [|x l IH]; [constructor|].
  rewrite filter_cons. simpl. destruct (f x) as [y|] eqn:E.
  - rewrite decide_True by done. by constructor.
  - rewrite decide_False; [done|]. by intros [? ?].
Qed.

Lemma truthy_true s : PyStr.truthy s = true ↔ s ≠ EmptyString.
Proof. by destruct s. Qed.

(** When the loop of [_help] appends a line, and which. *)
Lemma help_entry_Some table c line :
  help_entry table c = Some line ↔
  ∃ h doc, table !! c = Some h ∧ getdoc h = Some doc
           ∧ c ≠ "help" ∧ doc ≠ EmptyString
           ∧ line = _CMD_PREFIX +:+ c +:+ ": " +:+ PyStr.first_line doc.
Proof.
  unfold help_entry. split.
  - destruct (table !! c) as [h|] eqn:Hh; [|done].
    destruct (getdoc h) as [doc|] eqn:Hdoc; [|done].
    destruct (String.eqb_spec c "help"); simpl; [done|].
    destruct (PyStr.truthy doc) eqn:Ht; simpl; [|done].
    intros [= <-]. exists h, doc. apply truthy_true in Ht. by split_and!.
  - intros (h & doc & -> & -> & Hc & Hd & ->).
    apply String.eqb_neq in Hc. apply truthy_true in Hd.
    by rewrite Hc, Hd.
Qed.

(** The answer of [help] without arguments, for whichever table the
    message type selects. *)
Lemma help_listing W msg table st :
  select_cmds (msg_type msg) = Some table →
  _help W msg [] st
  = (Ok (Some (PyStr.join (linesep W)
                 (("Available commands:" +:+ linesep W)
                    :: omap (help_entry table) (sorted_keys table)
                    ++ [help_bottom W; help_src]))),
     st, []).
Proof. intros Hsel. unfold _help. by rewrite Hsel. Qed.

(** C6.  In the room, help without arguments returns the header, then
    one line per listed command, then the usage hint (and last the line
    with the address of the source), joined by line separators.  The
    listed commands are the registered names other than help whose
    handler has a non-empty docstring, each exactly once, in
    alphabetical order: the thirteen names below.  The line of a command
    pairs its name with its short help, the first line of its docstring:
    the thirteen lines below. *)
Theorem C6_group_help_listing W (msg : Message) (st : BotState) :
  msg_type msg = "groupchat" →
  ∃ names lines : list string,
    _help W msg [] st
    = (Ok (Some (PyStr.join (linesep W)
                   (("Available commands:" +:+ linesep W)
                      :: lines
                      ++ [linesep W +:+ "Type !help <command name> to get more info about that specific command.";
                          "Source code available at http://kurzma.ch/botsrc"]))),
       st, [])
    ∧ names = ["chuck"; "hug"; "kiss"; "meal"; "slap"; "surl"; "taunt";
               "vdown"; "vend"; "vstart"; "vstat"; "vup"; "wiki"]
    ∧ lines
      = ["!chuck: Displays a random Chuck Norris joke from http://icndb.com";
         "!hug: Hugs the given user";
         "!kiss: Kisses the given user";
         "!meal: Displays a 'enjoy your meal' message";
         "!slap: Slaps the given user";
         "!surl: Shorten a URL with the http://kurzma.ch URL shortener";
         "!taunt: Taunts the given user";
         "!vdown: Vote down for the current voting";
         "!vend: Ends the current voting and shows the result";
         "!vstart: Starts a voting";
         "!vstat: Displays statistics for the current voting";
         "!vup: Vote up for the current voting";
         "!wiki: Displays a random page from the german Wikipedia"]
    ∧ StronglySorted String.le names
    ∧ NoDup names
    ∧ (∀ c, c ∈ names ↔
            ∃ h doc, _muc_cmds !! c = Some h ∧ c ≠ "help"
                     ∧ getdoc h = Some doc ∧ doc ≠ EmptyString)
    ∧ Forall2 (λ c line,
         ∃ h doc, _muc_cmds !! c = Some h ∧ getdoc h = Some doc
                  ∧ line = _CMD_PREFIX +:+ c +:+ ": " +:+ PyStr.first_line doc)
        names lines.
Proof.
  intros Htype.
  exists (listed_names _muc_cmds),
         (omap (help_entry _muc_cmds) (sorted_keys _muc_cmds)).
  split_and!.
  - apply help_listing. rewrite Htype. apply select_cmds_groupchat.
  - by vm_compute.
  - by vm_compute.
  - apply StronglySorted_filter_keep, sorted_keys_sorted.
  - apply NoDup_filter, sorted_keys_NoDup.
  - intros c. unfold listed_names.
    rewrite list_elem_of_filter, elem_of_sorted_keys. split.
    + intros [[line Hline] _]. apply help_entry_Some in Hline.
      destruct Hline as (h & doc & ? & ? & ? & ? & _). by exists h, doc.
    + intros (h & doc & Hh & Hc & Hdoc & Hne). split; [|by exists h].
      eexists. apply help_entry_Some. by exists h, doc.
  - unfold listed_names.
    eapply Forall2_impl; [apply omap_of_filter|].
    intros c line Hline. apply help_entry_Some in Hline.
    destruct Hline as (h & doc & ? & ? & _ & _ & ->). by exists h, doc.
Qed.

Lemma C6_group_help_listing_witness :
  _help sample_world (room_message "alice" "!help") [] init_state
  = (Ok (Some (PyStr.join PyStr.nl
       ["Available commands:";
        EmptyString;
        "!chuck: Displays a random Chuck Norris joke from http://icndb.com";
        "!hug: Hugs the given user";
        "!kiss: Kisses the given user";
        "!meal: Displays a 'enjoy your meal' message";
        "!slap: Slaps the given user";
        "!surl: Shorten a URL with the http://kurzma.ch URL shortener";
        "!taunt: Taunts the given user";
        "!vdown: Vote down for the current voting";
        "!vend: Ends the current voting and shows the result";
        "!vstart: Starts a voting";
        "!vstat: Displays statistics for the current voting";
        "!vup: Vote up for the current voting";
        "!wiki: Displays a random page from the german Wikipedia";
        EmptyString;
        "Type !help <command name> to get more info about that specific command.";
        "Source code available at http://kurzma.ch/botsrc"])),
     init_state, []).
Proof.
  destruct (C6_group_help_listing sample_world
              (room_message "alice" "!help") init_state eq_refl)
    as (names & lines & Hrun & _ & Hlines & _).
  rewrite Hrun, Hlines. reflexivity.
Defined.

(** * Further properties of the dispatcher and the handlers *)

(** ** What a handler may put on the wire *)

Lemma sent_app tr1 tr2 : sent (tr1 ++ tr2) = sent tr1 ++ sent tr2.
Proof. unfold sent. apply filter_app. Qed.

Lemma quiet_ret {A} (a : A) : sends_nothing (ret a).
Proof. done. Qed.

Lemma quiet_raise {A} (e : exn) : sends_nothing (@raise A e).
Proof. done. Qed.

Lemma quiet_lift {A} (r : Result A) : sends_nothing (lift r).
Proof. done. Qed.

Lemma quiet_get : sends_nothing get_state.
Proof. done. Qed.

Lemma quiet_put st' : sends_nothing (put_state st').
Proof. done. Qed.

Lemma quiet_emit ev : is_sent ev = false → sends_nothing (emit ev).
Proof.
  intros Hev st. unfold emit, trace_of, sent. simpl.
  rewrite filter_cons. by rewrite Hev.
Qed.

Lemma quiet_bind {A B} (m : M A) (k : A → M B) :
  sends_nothing m → (∀ a, sends_nothing (k a)) → sends_nothing (bind m k).
Proof.
  intros Hm Hk st. unfold bind, trace_of.
  specialize (Hm st). unfold trace_of in Hm.
  destruct (m st) as [[[a|e] st1] tr1]; simpl in *; [|done].
  specialize (Hk a st1). unfold trace_of in Hk.
  destruct (k a st1) as [[r st2] tr2]. simpl in *.
  by rewrite sent_app, Hm, Hk.
Qed.

Lemma quiet_read_local {A} (v : option A) : sends_nothing (read_local v).
Proof. destruct v; [apply quiet_ret | apply quiet_raise]. Qed.

Create HintDb quiet.
#[local] Hint Resolve quiet_ret quiet_raise quiet_lift quiet_get quiet_put
  quiet_read_local : quiet.

Ltac quiet_step :=
  match goal with
  | |- sends_nothing (bind _ _) => apply quiet_bind; [|intros]
  | |- sends_nothing (emit _) => apply quiet_emit; reflexivity
  | |- sends_nothing (match ?x with _ => _ end) => destruct x
  | |- sends_nothing (if ?b then _ else _) => destruct b
  | |- sends_nothing (let _ := _ in _) => cbv zeta
  | |- sends_nothing _ => solve [auto with quiet]
  end.

Ltac solve_quiet := repeat quiet_step.

Lemma quiet_requests_get W url params :
  sends_nothing (requests_get W url params).
Proof. unfold requests_get. solve_quiet. Qed.

Lemma quiet_response_json r : sends_nothing (response_json r).
Proof. unfold response_json. solve_quiet. Qed.

Lemma quiet_read_stripped W name : sends_nothing (read_stripped W name).
Proof. unfold read_stripped. solve_quiet. Qed.

#[local] Hint Resolve quiet_requests_get quiet_response_json
  quiet_read_stripped : quiet.

Lemma quiet_shorten_url W cfg msg args :
  sends_nothing (_shorten_url W cfg msg args).
Proof. unfold _shorten_url. solve_quiet. Qed.

#[local] Hint Resolve quiet_shorten_url : quiet.

(** No handler sends anything itself: sending is left to the dispatcher. *)
Lemma quiet_handler W cfg h msg args :
  sends_nothing (run_handler W cfg h msg args).
Proof.
  destruct h; cbn [run_handler];
    unfold answer, _help, _chuck_norris, chuck_fetch, _wikipedia, _taunt,
      _vote_start, _vote_up, _vote_down, _vote_stat, _vote_end,
      _slap, _meal, _hug, _kiss;
    solve_quiet.
Qed.

(** ** The shape of a dispatch *)

(** Every run of [message] ends silently, or fails on the unbound table,
    or is the resolved handler followed by the routing of its answer. *)
Lemma message_cases W cfg msg st :
  message W cfg msg st = (Ok tt, st, [])
  ∨ (select_cmds (msg_type msg) = None
     ∧ message W cfg msg st = (Raise UnboundLocalError, st, []))
  ∨ ∃ first args table h,
      PyStr.startswith (msg_body msg) _CMD_PREFIX = true
      ∧ parse_body (msg_body msg) = first :: args
      ∧ select_cmds (msg_type msg) = Some table
      ∧ table !! PyStr.slice_from 1 first = Some h
      ∧ message W cfg msg st
        = bind (run_handler W cfg h msg args)
            (route msg (PyStr.slice_from 1 first)) st.
Proof.
  unfold message.
  destruct (PyStr.startswith _ _) eqn:Hpre; [|by left]. cbn [negb].
  destruct (parse_body_cons (msg_body msg)) as (first & args & Hparse).
  rewrite Hparse.
  change (String.length _CMD_PREFIX) with 1.
  destruct (select_cmds (msg_type msg)) as [table|] eqn:Hsel;
    [|by right; left].
  cbn [read_local]. rewrite bind_ret_l.
  destruct (table !! _) as [h|] eqn:Hlook; [|by left].
  right; right. by exists first, args, table, h.
Qed.

Lemma route_run msg cmd resp st :
  ∃ tr, route msg cmd resp st = (Ok tt, st, tr) ∧ length tr ≤ 1
        ∧ (select_cmds (msg_type msg) ≠ None → length tr = 1).
Proof.
  unfold route, select_cmds.
  destruct (is_direct (msg_type msg)).
  { eexists. split; [done|]. simpl. split; [lia|done]. }
  destruct (String.eqb (msg_type msg) "groupchat").
  - destruct (String.eqb cmd "help");
      (eexists; split; [done|]; simpl; split; [lia|done]).
  - eexists. split; [done|]. simpl. split; [lia|done].
Qed.

(** The entries of the two tables, read back from a lookup. *)
Lemma cmds_lookup name h :
  _cmds !! name = Some h →
  (name, h) ∈ [("help", H_help); ("chuck", H_chuck_norris);
               ("surl", H_shorten_url); ("wiki", H_wikipedia);
               ("taunt", H_taunt)].
Proof. unfold _cmds. apply elem_of_list_to_map_2. Qed.

Lemma muc_cmds_lookup name h :
  _muc_cmds !! name = Some h →
  (name, h) ∈ [("help", H_help); ("chuck", H_chuck_norris);
               ("surl", H_shorten_url); ("vstart", H_vote_start);
               ("vup", H_vote_up); ("vdown", H_vote_down);
               ("vstat", H_vote_stat); ("vend", H_vote_end);
               ("slap", H_slap); ("meal", H_meal); ("hug", H_hug);
               ("kiss", H_kiss); ("wiki", H_wikipedia); ("taunt", H_taunt)].
Proof. unfold _muc_cmds. apply elem_of_list_to_map_2. Qed.

(** A handler other than the four that vote leaves the session alone. *)
Lemma handler_keeps_state W cfg h msg args st :
  h ≠ H_vote_start → h ≠ H_vote_up → h ≠ H_vote_down → h ≠ H_vote_end →
  state_of (run_handler W cfg h msg args st) = st.
Proof.
  intros Hs Hu Hd He.
  destruct h; cbn [run_handler]; rewrite ?state_of_answer; try done;
    first [ apply keeps_help | apply keeps_chuck_norris
          | apply keeps_shorten_url | apply keeps_wikipedia
          | apply keeps_taunt | apply vote_stat_pure | apply keeps_slap
          | apply keeps_meal | apply keeps_hug | apply keeps_kiss ].
Qed.

(** ** The dispatcher beyond the room's routing *)

(** X1.  The dispatcher ends silently, with nothing sent, nothing raised
    and the session as it was, for a body that does not start with the
    prefix, whatever the message type, and for a message of a recognised
    type whose command is not a key of the selected table. *)
Theorem message_silent_paths W cfg (msg : Message) (st : BotState) :
  (PyStr.startswith (msg_body msg) _CMD_PREFIX = false →
   message W cfg msg st = (Ok tt, st, []))
  ∧ (∀ first args table,
       PyStr.startswith (msg_body msg) _CMD_PREFIX = true →
       parse_body (msg_body msg) = first :: args →
       select_cmds (msg_type msg) = Some table →
       table !! PyStr.slice_from 1 first = None →
       message W cfg msg st = (Ok tt, st, [])).
Proof.
  split.
  - apply message_no_prefix.
  - intros first args table Hpre Hparse Hsel Hlook.
    by eapply message_unknown_command.
Qed.

Lemma message_silent_paths_witness :
  message sample_world sample_config
    (mkMessage "hello !help" "headline" (mkJID "alice@example.org" "desk"))
    init_state = (Ok tt, init_state, [])
  ∧ message sample_world sample_config (room_message "alice" "!Help")
      init_state = (Ok tt, init_state, [])
  ∧ message sample_world sample_config
      (mkMessage "!vup" "chat" (mkJID "alice@example.org" "desk"))
      init_state = (Ok tt, init_state, []).
Proof.
  split_and!.
  - by apply (proj1 (message_silent_paths _ _ _ _)).
  - by apply (proj2 (message_silent_paths sample_world sample_config
                       (room_message "alice" "!Help") init_state)
                "!Help" [] _muc_cmds).
  - by apply (proj2 (message_silent_paths sample_world sample_config
                       (mkMessage "!vup" "chat"
                          (mkJID "alice@example.org" "desk")) init_state)
                "!vup" [] _cmds).
Defined.

(** X2.  When the handler of a resolved command raises, the dispatcher
    raises the same exception: it keeps the session and the outside calls
    the handler had made, and sends nothing. *)
Theorem handler_failure_propagates W cfg (msg : Message) (st : BotState)
    first args table h e st' tr :
  PyStr.startswith (msg_body msg) _CMD_PREFIX = true →
  parse_body (msg_body msg) = first :: args →
  select_cmds (msg_type msg) = Some table →
  table !! PyStr.slice_from 1 first = Some h →
  run_handler W cfg h msg args st = (Raise e, st', tr) →
  message W cfg msg st = (Raise e, st', tr) ∧ sent tr = [].
Proof.
  intros Hpre Hparse Hsel Hlook Hrun. split.
  - unfold message. rewrite Hpre, Hparse, Hsel.
    change (String.length _CMD_PREFIX) with 1.
    cbn [negb read_local]. rewrite bind_ret_l, Hlook.
    by apply bind_raise.
  - pose proof (quiet_handler W cfg h msg args st) as Hq.
    by rewrite Hrun in Hq.
Qed.

Lemma handler_failure_propagates_witness :
  message sample_world sample_config (room_message "alice" "!wiki today")
    init_state
  = (Raise IndexError, init_state, [FeedParse wiki_feed]).
Proof.
  apply (handler_failure_propagates sample_world sample_config
           (room_message "alice" "!wiki today") init_state
           "!wiki" ["today"] _muc_cmds H_wikipedia); reflexivity.
Defined.

(** X3.  Handling one message hands at most one stanza to the XMPP
    library, and none at all when the handling ends with an exception. *)
Theorem message_sends_at_most_once W cfg (msg : Message) (st : BotState) :
  length (sent (trace_of (message W cfg msg st))) ≤ 1
  ∧ (∀ e, result_of (message W cfg msg st) = Raise e →
          sent (trace_of (message W cfg msg st)) = []).
Proof.
  destruct (message_cases W cfg msg st)
    as [->|[[_ ->]|(first & args & table & h & _ & _ & _ & _ & ->)]].
  - split; [simpl; lia|done].
  - split; [simpl; lia|done].
  - pose proof (quiet_handler W cfg h msg args st) as Hq.
    set (cmd := PyStr.slice_from 1 first).
    destruct (run_handler W cfg h msg args st) as [[[resp|e'] st1] tr1]
      eqn:Hrun; unfold trace_of in Hq; simpl in Hq.
    + rewrite (bind_ok _ _ _ _ _ _ Hrun).
      destruct (route_run msg cmd resp st1) as (tr & -> & Hlen & _).
      unfold trace_of, result_of. simpl.
      rewrite sent_app, Hq. simpl. split; [|done].
      unfold sent. etrans; [apply length_filter|done].
    + rewrite (bind_raise _ _ _ _ _ _ Hrun).
      unfold trace_of. simpl. rewrite Hq. split; [simpl; lia|done].
Qed.

Lemma message_sends_at_most_once_witness :
  sent (trace_of (message sample_world sample_config
                    (mkMessage "!help" "headline"
                       (mkJID "alice@example.org" "desk")) init_state))
  = [].
Proof.
  apply (proj2 (message_sends_at_most_once sample_world sample_config
                  (mkMessage "!help" "headline"
                     (mkJID "alice@example.org" "desk")) init_state)
           UnboundLocalError).
  reflexivity.
Defined.

(** X4.  On a direct channel (type normal or chat) the answer of every
    resolved command, help included, is sent by replying to the incoming
    stanza; and such a command never changes the voting session. *)
Theorem direct_routing W cfg (msg : Message) (st : BotState)
    first args h resp st' tr :
  PyStr.startswith (msg_body msg) _CMD_PREFIX = true →
  parse_body (msg_body msg) = first :: args →
  is_direct (msg_type msg) = true →
  _cmds !! PyStr.slice_from 1 first = Some h →
  run_handler W cfg h msg args st = (Ok resp, st', tr) →
  message W cfg msg st = (Ok tt, st, tr ++ [ReplySend msg resp]) ∧ st' = st.
Proof.
  intros Hpre Hparse Hdir Hlook Hrun.
  assert (Hsel : select_cmds (msg_type msg) = Some _cmds)
    by (unfold select_cmds; by rewrite Hdir).
  assert (Hst : st' = st).
  { pose proof (handler_keeps_state W cfg h msg args st) as Hk.
    rewrite Hrun in Hk. unfold state_of in Hk. simpl in Hk.
    apply cmds_lookup in Hlook.
    repeat (apply elem_of_cons in Hlook as [[= _ ->]|Hlook]);
      [by apply Hk..|by apply elem_of_nil in Hlook]. }
  split; [|done]. subst st'.
  rewrite (message_dispatch _ _ _ _ _ _ _ _ _ _ _ Hpre Hparse Hsel Hlook Hrun).
  unfold route. by rewrite Hdir.
Qed.

Lemma direct_routing_witness :
  let msg := mkMessage "!help surl" "chat" (mkJID "alice@example.org" "desk") in
  ∃ text,
    message sample_world sample_config msg init_state
    = (Ok tt, init_state, [ReplySend msg (PStr text)]).
Proof.
  intros msg. eexists.
  refine (proj1 (direct_routing sample_world sample_config msg init_state
                   "!help" ["surl"] H_help _ init_state [] _ _ _ _ _));
    reflexivity.
Defined.

(** ** Who can write the voting session *)

(** X5.  A message changes the voting session only if it comes from the
    room and its command is one of vstart, vup, vdown and vend: no
    direct message and no other command ever writes the subject or the
    voter sets. *)
Theorem session_written_only_by_votes W cfg (msg : Message) (st : BotState) :
  state_of (message W cfg msg st) ≠ st →
  msg_type msg = "groupchat"
  ∧ ∃ first args,
      parse_body (msg_body msg) = first :: args
      ∧ PyStr.slice_from 1 first ∈ vote_commands.
Proof.
  intros Hne.
  destruct (message_cases W cfg msg st)
    as [Hm|[[_ Hm]|(first & args & table & h & _ & Hparse & Hsel & Hlook & Hm)]];
    [by rewrite Hm in Hne..|].
  assert (Hst : state_of (message W cfg msg st)
                = state_of (run_handler W cfg h msg args st)).
  { rewrite Hm. apply state_of_bind_keeps. intros resp. apply keeps_route. }
  assert (Hvote : ¬ (h ≠ H_vote_start ∧ h ≠ H_vote_up
                     ∧ h ≠ H_vote_down ∧ h ≠ H_vote_end)).
  { intros (? & ? & ? & ?). apply Hne. rewrite Hst.
    by apply handler_keeps_state. }
  destruct (select_cmds_Some _ _ Hsel) as [[_ ->]|(_ & Htype & ->)].
  - exfalso. apply Hvote. apply cmds_lookup in Hlook.
    repeat (apply elem_of_cons in Hlook as [[= _ ->]|Hlook]);
      [done..|by apply elem_of_nil in Hlook].
  - split; [done|]. exists first, args. split; [done|].
    apply muc_cmds_lookup in Hlook. unfold vote_commands.
    repeat (apply elem_of_cons in Hlook as [[= -> ->]|Hlook]);
      try (exfalso; apply Hvote; done); try set_solver.
Qed.

Lemma session_written_only_by_votes_witness :
  msg_type (room_message "alice" "!vstart Pizza?") = "groupchat"
  ∧ ∃ first args,
      parse_body (msg_body (room_message "alice" "!vstart Pizza?"))
      = first :: args
      ∧ PyStr.slice_from 1 first ∈ vote_commands.
Proof.
  apply (session_written_only_by_votes sample_world sample_config
           (room_message "alice" "!vstart Pizza?") init_state).
  vm_compute. discriminate.
Defined.

(** X6.  Every command of the direct table is also a command of the
    room's table, bound to the same handler: what is answered on a
    direct channel is answered by the same method in the room. *)
Theorem direct_commands_in_room (name : string) (h : Handler) :
  _cmds !! name = Some h → _muc_cmds !! name = Some h.
Proof.
  intros Hlook. apply cmds_lookup in Hlook.
  repeat (apply elem_of_cons in Hlook as [[= -> ->]|Hlook]);
    [by vm_compute..|by apply elem_of_nil in Hlook].
Qed.

Lemma direct_commands_in_room_witness :
  _muc_cmds !! "taunt" = Some H_taunt.
Proof. apply direct_commands_in_room. reflexivity. Defined.

(** X7.  In every session the bot can reach from its start by handling
    messages, the up voters and the down voters are disjoint, both sets
    are empty while no vote is running, and the subject of a running
    vote is not blank. *)
Theorem reachable_invariants W cfg (st : BotState) :
  reachable W cfg st →
  votes_up st ## votes_down st
  ∧ (subject_truthy (vote_subject st) = false →
     vote_subject st = None ∧ votes_up st = ∅ ∧ votes_down st = ∅)
  ∧ (∀ s, vote_subject st = Some s → PyStr.isblank s = false).
Proof.
  intros Hreach. apply reachable_session_ok in Hreach.
  pose proof (session_ok_truthy st Hreach) as Hidle.
  destruct Hreach as (Hd & Hempty & Hblank).
  split_and!; [done| |done].
  intros Ht. specialize (Hidle Ht). by destruct (Hempty Hidle).
Qed.

Lemma reachable_invariants_witness :
  let st := state_of (message sample_world sample_config
                        (room_message "alice" "!vstart Pizza tonight?")
                        init_state) in
  votes_up st ## votes_down st
  ∧ (subject_truthy (vote_subject st) = false →
     vote_subject st = None ∧ votes_up st = ∅ ∧ votes_down st = ∅)
  ∧ (∀ s, vote_subject st = Some s → PyStr.isblank s = false).
Proof.
  apply (reachable_invariants sample_world sample_config).
  apply reachable_message, reachable_init.
Defined.

Lemma reachable_idle_empty W cfg st :
  reachable W cfg st → subject_truthy (vote_subject st) = false →
  votes_up st = ∅ ∧ votes_down st = ∅.
Proof.
  intros Hreach Hidle. apply reachable_session_ok in Hreach.
  pose proof (session_ok_truthy st Hreach Hidle) as Hnone.
  destruct Hreach as (_ & Hempty & _). by apply Hempty.
Qed.

(** X8.  In a reachable session without a running vote, starting a vote
    with a subject that is not empty leaves both voter sets empty, so
    stat reports that subject with zero votes on each side. *)
Theorem new_vote_starts_empty W cfg (msg : Message) (args : list string)
    (st : BotState) :
  reachable W cfg st →
  subject_truthy (vote_subject st) = false →
  PyStr.join " " args ≠ EmptyString →
  let st1 := state_of (_vote_start msg args st) in
  vote_subject st1 = Some (PyStr.join " " args)
  ∧ votes_up st1 = ∅ ∧ votes_down st1 = ∅
  ∧ _vote_stat msg [] st1
    = (Ok (Some (stat_text (PyStr.join " " args) 0 0)), st1, []).
Proof.
  intros Hreach Hidle Hsubj st1.
  destruct (reachable_idle_empty W cfg st Hreach Hidle) as (Hup & Hdown).
  assert (Hargs : args ≠ []) by (by intros ->).
  assert (Hst1 : st1 = {| vote_subject := Some (PyStr.join " " args);
                          votes_up := ∅; votes_down := ∅ |}).
  { subst st1. run_vote. rewrite Hidle, Hup, Hdown. by destruct args. }
  rewrite Hst1. split_and!; [done..|].
  run_vote. by destruct (PyStr.join " " args).
Qed.

Lemma new_vote_starts_empty_witness :
  let msg := room_message "alice" "!vstart Pizza tonight?" in
  let st1 := state_of (_vote_start msg ["Pizza"; "tonight?"] init_state) in
  _vote_stat msg [] st1
  = (Ok (Some (stat_text "Pizza tonight?" 0 0)), st1, []).
Proof.
  intros msg.
  refine (proj2 (proj2 (proj2
            (new_vote_starts_empty sample_world sample_config msg
               ["Pizza"; "tonight?"] init_state _ eq_refl _)))).
  - apply reachable_init.
  - discriminate.
Defined.

(** ** Casting votes *)

(** X9.  A vote up or a vote down concerns the voter alone: whether any
    other nickname is among the up voters or among the down voters is
    the same before and after. *)
Theorem vote_touches_only_the_voter (msg : Message) (args : list string)
    (st : BotState) (other : string) :
  other ≠ resource (msg_from msg) →
  (other ∈ votes_up (state_of (_vote_up msg args st)) ↔ other ∈ votes_up st)
  ∧ (other ∈ votes_down (state_of (_vote_up msg args st))
     ↔ other ∈ votes_down st)
  ∧ (other ∈ votes_up (state_of (_vote_down msg args st))
     ↔ other ∈ votes_up st)
  ∧ (other ∈ votes_down (state_of (_vote_down msg args st))
     ↔ other ∈ votes_down st).
Proof.
  intros Hother. run_vote.
  destruct (subject_truthy (vote_subject st)); simpl; [|done].
  repeat case_bool_decide; simpl; set_solver.
Qed.

Lemma vote_touches_only_the_voter_witness :
  let st := {| vote_subject := Some "Pizza?"; votes_up := {["bob"]};
               votes_down := {["alice"]} |} in
  "bob" ∈ votes_up (state_of (_vote_up (room_message "alice" "!vup") [] st)).
Proof.
  intros st.
  apply (proj1 (vote_touches_only_the_voter (room_message "alice" "!vup")
                  [] st "bob" ltac:(discriminate))).
  unfold st. simpl. set_solver.
Defined.

(** X10.  While a vote is running and the two sets are disjoint, after a
    vote up or a vote down the two counts add up to the number of
    distinct nicknames that have voted so far, the voter included: a
    nickname that votes again, on either side, is counted once. *)
Theorem votes_count_each_voter_once (msg : Message) (args : list string)
    (st : BotState) :
  subject_truthy (vote_subject st) = true →
  votes_up st ## votes_down st →
  let voters := votes_up st ∪ votes_down st ∪ {[resource (msg_from msg)]} in
  size (votes_up (state_of (_vote_up msg args st)))
  + size (votes_down (state_of (_vote_up msg args st))) = size voters
  ∧ size (votes_up (state_of (_vote_down msg args st)))
    + size (votes_down (state_of (_vote_down msg args st))) = size voters.
Proof.
  intros Hrun Hd voters. split.
  - pose proof (vote_up_disjoint msg args st Hd) as Hd1.
    unfold disjoint_votes in Hd1. rewrite <- size_union by done.
    f_equal. subst voters. revert Hd1. run_vote. rewrite Hrun. simpl.
    repeat case_bool_decide; simpl; intros; apply set_eq; intros x;
      destruct (decide (x = resource (msg_from msg))); set_solver.
  - pose proof (vote_down_disjoint msg args st Hd) as Hd1.
    unfold disjoint_votes in Hd1. rewrite <- size_union by done.
    f_equal. subst voters. revert Hd1. run_vote. rewrite Hrun. simpl.
    repeat case_bool_decide; simpl; intros; apply set_eq; intros x;
      destruct (decide (x = resource (msg_from msg))); set_solver.
Qed.

Lemma votes_count_each_voter_once_witness :
  let st := {| vote_subject := Some "Pizza?"; votes_up := {["bob"]};
               votes_down := {["alice"]} |} in
  let st1 := state_of (_vote_up (room_message "alice" "!vup") [] st) in
  size (votes_up st1) + size (votes_down st1) = 2.
Proof.
  intros st st1.
  assert (Hd : votes_up st ## votes_down st).
  { unfold st. simpl. set_solver. }
  subst st1.
  rewrite (proj1 (votes_count_each_voter_once
                    (room_message "alice" "!vup") [] st eq_refl Hd)).
  by vm_compute.
Defined.

(** X11.  While a vote is running, a second vote on the same side by the
    same nickname is refused with a notice and changes nothing: after a
    vote up, another vote up answers that the voter already voted, and
    likewise for a vote down. *)
Theorem repeated_vote_is_refused (msg : Message) (args args' : list string)
    (st : BotState) :
  subject_truthy (vote_subject st) = true →
  let voter := resource (msg_from msg) in
  _vote_up msg args' (state_of (_vote_up msg args st))
  = (Ok (Some ("You already voted " +:+ voter)),
     state_of (_vote_up msg args st), [])
  ∧ _vote_down msg args' (state_of (_vote_down msg args st))
    = (Ok (Some "You already voted down"),
       state_of (_vote_down msg args st), []).
Proof.
  intros Hrun voter. split.
  - assert (Hin : voter ∈ votes_up (state_of (_vote_up msg args st))).
    { subst voter. run_vote. rewrite Hrun. simpl.
      case_bool_decide; simpl; set_solver. }
    pose proof (vote_up_subject msg args st) as Hsubj.
    revert Hin Hsubj. generalize (state_of (_vote_up msg args st)).
    intros st1 Hin Hsubj. run_vote. rewrite Hsubj, Hrun. simpl.
    by rewrite bool_decide_eq_true_2.
  - assert (Hin : voter ∈ votes_down (state_of (_vote_down msg args st))).
    { subst voter. run_vote. rewrite Hrun. simpl.
      case_bool_decide; simpl; set_solver. }
    pose proof (vote_down_subject msg args st) as Hsubj.
    revert Hin Hsubj. generalize (state_of (_vote_down msg args st)).
    intros st1 Hin Hsubj. run_vote. rewrite Hsubj, Hrun. simpl.
    by rewrite bool_decide_eq_true_2.
Qed.

Lemma repeated_vote_is_refused_witness :
  let msg := room_message "alice" "!vup" in
  let st := {| vote_subject := Some "Pizza?"; votes_up := ∅;
               votes_down := ∅ |} in
  result_of (_vote_up msg [] (state_of (_vote_up msg [] st)))
  = Ok (Some "You already voted alice").
Proof.
  intros msg st.
  by rewrite (proj1 (repeated_vote_is_refused msg [] [] st eq_refl)).
Defined.

(** X12.  The five voting handlers and meal, hug and kiss always return
    a text: whatever the message, the arguments and the session, they
    raise nothing and make no call outside the process. *)
Theorem local_handlers_always_answer W cfg (h : Handler) (msg : Message)
    (args : list string) (st : BotState) :
  h ∈ [H_vote_start; H_vote_up; H_vote_down; H_vote_stat; H_vote_end;
       H_meal; H_hug; H_kiss] →
  ∃ text st', run_handler W cfg h msg args st = (Ok (PStr text), st', []).
Proof.
  intros Hh.
  assert (Hloc : ∃ m : M (option string),
             run_handler W cfg h msg args = answer m
             ∧ ∃ text st', m st = (Ok (Some text), st', [])).
  { repeat (apply elem_of_cons in Hh as [->|Hh]);
      [..|by apply elem_of_nil in Hh]; cbn [run_handler];
      eexists; (split; [reflexivity|]).
    - run_vote. destruct (subject_truthy _); [by eauto|].
      destruct args; by eauto.
    - run_vote. destruct (subject_truthy _); simpl; [|by eauto].
      case_bool_decide; by eauto.
    - run_vote. destruct (subject_truthy _); simpl; [|by eauto].
      case_bool_decide; by eauto.
    - run_vote. destruct (subject_truthy _); by eauto.
    - run_vote. destruct (subject_truthy _); by eauto.
    - by eexists _, _.
    - destruct args; by eexists _, _.
    - destruct args as [|x [|y [|z rest]]]; by eexists _, _. }
  destruct Hloc as (m & -> & text & st' & Hm). exists text, st'.
  by rewrite (answer_ok _ _ _ _ _ Hm).
Qed.

Lemma local_handlers_always_answer_witness :
  ∃ text st',
    run_handler sample_world sample_config H_hug
      (room_message "alice" "!hug bob") ["bob"] init_state
    = (Ok (PStr text), st', []).
Proof.
  apply local_handlers_always_answer. set_solver.
Defined.

(** ** Tokens of a command line *)

Lemma string_app_nil_r s : s +:+ EmptyString = s.
Proof.
  induction s as [|c s IH]; [done|]. by rewrite string_app_cons, IH.
Qed.

Lemma string_app_assoc a b c : (a +:+ b) +:+ c = a +:+ (b +:+ c).
Proof.
  induction a as [|x a IH]; [done|]. by rewrite !string_app_cons, IH.
Qed.

Lemma split_cons sep s : ∃ tok toks, PyStr.split sep s = tok :: toks.
Proof.
  destruct (PyStr.split sep s) as [|tok toks] eqn:E.
  - by apply split_not_nil in E.
  - by exists tok, toks.
Qed.

Lemma join_cons_cons sep x y l :
  PyStr.join sep (x :: y :: l) = x +:+ sep +:+ PyStr.join sep (y :: l).
Proof. reflexivity. Qed.

(** Joining what [split] gives with the separator restores the string. *)
Lemma join_split sep s :
  PyStr.join (String sep EmptyString) (PyStr.split sep s) = s.
Proof.
  induction s as [|c s IH]; [done|].
  destruct (split_cons sep s) as (tok & toks & E).
  simpl. rewrite E in *. destruct (Ascii.eqb_spec c sep) as [->|Hne].
  - rewrite join_cons_cons, IH. reflexivity.
  - destruct toks as [|tok' toks].
    + simpl in IH. by subst.
    + rewrite join_cons_cons in *. rewrite string_app_cons. by rewrite IH.
Qed.

Lemma split_tokens_free sep s :
  Forall (λ tok, count_char sep tok = 0) (PyStr.split sep s).
Proof.
  induction s as [|c s IH]; [by repeat constructor|].
  destruct (split_cons sep s) as (tok & toks & E).
  simpl. rewrite E in *. apply Forall_cons in IH as [Htok Htoks].
  destruct (Ascii.eqb_spec c sep) as [->|Hne].
  - by repeat constructor.
  - constructor; [|done]. simpl.
    apply Ascii.eqb_neq in Hne. by rewrite Hne.
Qed.

Lemma split_length sep s :
  length (PyStr.split sep s) = S (count_char sep s).
Proof.
  induction s as [|c s IH]; [done|].
  destruct (split_cons sep s) as (tok & toks & E).
  simpl. rewrite E in *. destruct (Ascii.eqb c sep); simpl in *; lia.
Qed.

(** X13.  The tokens of a body are those of the stripped body cut at
    every single space: joined by single spaces they give the stripped
    body back, no token contains a space, and there is one token more
    than there are spaces, so that two spaces in a row yield an empty
    token. *)
Theorem tokens_of_body (body : string) :
  PyStr.join " " (parse_body body) = PyStr.strip body
  ∧ Forall (λ tok, ¬ has_char " " tok) (parse_body body)
  ∧ length (parse_body body) = S (count_char " " (PyStr.strip body)).
Proof.
  unfold parse_body. split_and!.
  - apply join_split.
  - eapply Forall_impl; [apply split_tokens_free|].
    intros tok Htok Hhas. by apply Hhas.
  - apply split_length.
Qed.

Lemma lstrip_blank ws s :
  PyStr.isblank ws = true → PyStr.lstrip (ws +:+ s) = PyStr.lstrip s.
Proof.
  induction ws as [|c ws IH]; [done|].
  intros H. rewrite string_app_cons. simpl in *.
  apply andb_true_iff in H as [Hc Hws]. rewrite Hc. by apply IH.
Qed.

Lemma lstrip_all_blank ws : PyStr.isblank ws = true → PyStr.lstrip ws = EmptyString.
Proof.
  intros Hws. rewrite <- (string_app_nil_r ws). by rewrite lstrip_blank.
Qed.

Lemma isblank_app a b :
  PyStr.isblank (a +:+ b) = PyStr.isblank a && PyStr.isblank b.
Proof.
  induction a as [|c a IH]; [done|].
  rewrite string_app_cons. simpl. rewrite IH. by rewrite andb_assoc.
Qed.

Lemma rev_cons c s : String.rev (String c s) = String.rev s +:+ String c EmptyString.
Proof. unfold String.rev at 1. simpl. apply rev_app_spec. Qed.

Lemma rev_app a b : String.rev (a +:+ b) = String.rev b +:+ String.rev a.
Proof.
  induction a as [|c a IH].
  - by rewrite string_app_nil_l, string_app_nil_r.
  - by rewrite string_app_cons, !rev_cons, IH, string_app_assoc.
Qed.

Lemma isblank_rev s : PyStr.isblank (String.rev s) = PyStr.isblank s.
Proof.
  induction s as [|c s IH]; [done|].
  rewrite rev_cons, isblank_app, IH. simpl.
  rewrite andb_true_r. apply andb_comm.
Qed.

Lemma rstrip_blank s ws :
  PyStr.isblank ws = true → PyStr.rstrip (s +:+ ws) = PyStr.rstrip s.
Proof.
  intros Hws. unfold PyStr.rstrip.
  rewrite rev_app, lstrip_blank; [done|]. by rewrite isblank_rev.
Qed.

Lemma lstrip_app s ws :
  PyStr.isblank ws = true →
  ∃ ws', PyStr.isblank ws' = true
         ∧ PyStr.lstrip (s +:+ ws) = PyStr.lstrip s +:+ ws'.
Proof.
  intros Hws. induction s as [|c s IH].
  - exists EmptyString. split; [done|].
    by rewrite string_app_nil_l, lstrip_all_blank.
  - rewrite string_app_cons. simpl. destruct (PyStr.isspace c); [done|].
    exists ws. by rewrite string_app_cons.
Qed.

Lemma strip_blank_tail s ws :
  PyStr.isblank ws = true → PyStr.strip (s +:+ ws) = PyStr.strip s.
Proof.
  intros Hws. unfold PyStr.strip.
  destruct (lstrip_app s ws Hws) as (ws' & Hws' & ->).
  by apply rstrip_blank.
Qed.

(** X14.  White space at the end of a body never changes its tokens: a
    command line followed by blanks, tabs or line ends is parsed as the
    command line alone. *)
Theorem trailing_blanks_are_dropped (body ws : string) :
  PyStr.isblank ws = true →
  parse_body (body +:+ ws) = parse_body body.
Proof.
  intros Hws. unfold parse_body. by rewrite strip_blank_tail.
Qed.

Lemma trailing_blanks_are_dropped_witness :
  parse_body ("!kiss bob" +:+ (" " +:+ PyStr.nl)) = ["!kiss"; "bob"].
Proof.
  rewrite trailing_blanks_are_dropped; reflexivity.
Defined.

(** X15.  A body that is the prefix alone, or the prefix followed only
    by white space, names the empty command, which neither table knows:
    on a recognised channel it is ignored silently. *)
Theorem bare_prefix_is_ignored W cfg (msg : Message) (st : BotState)
    (ws : string) table :
  msg_body msg = _CMD_PREFIX +:+ ws →
  PyStr.isblank ws = true →
  select_cmds (msg_type msg) = Some table →
  message W cfg msg st = (Ok tt, st, []).
Proof.
  intros Hbody Hws Hsel.
  apply (message_unknown_command W cfg msg st _CMD_PREFIX [] table).
  - rewrite Hbody. unfold PyStr.startswith. vm_compute. by destruct ws.
  - rewrite Hbody. unfold parse_body. rewrite strip_blank_tail by done.
    by vm_compute.
  - done.
  - destruct (select_cmds_Some _ _ Hsel) as [[_ ->]|(_ & _ & ->)];
      by vm_compute.
Qed.

Lemma bare_prefix_is_ignored_witness :
  message sample_world sample_config (room_message "alice" "!   ")
    init_state = (Ok tt, init_state, []).
Proof.
  by apply (bare_prefix_is_ignored sample_world sample_config
              (room_message "alice" "!   ") init_state "   " _muc_cmds).
Defined.

Lemma vote_start_idle msg args st :
  subject_truthy (vote_subject st) = false → args ≠ [] →
  _vote_start msg args st
  = (Ok (Some "Voting started"),
     {| vote_subject := Some (PyStr.join " " args);
        votes_up := votes_up st; votes_down := votes_down st |}, []).
Proof.
  intros Hidle Hargs. unfold _vote_start, bind, get_state, put_state, ret.
  rewrite Hidle. by destruct args.
Qed.

(** X16.  In the room, while no vote is running, a body that reads
    vstart, one space and a text starts a vote whose subject is exactly
    that text, inner spacing included, and the room is told that the
    voting started. *)
Theorem room_vstart_sets_subject W cfg (msg : Message) (st : BotState)
    (rest : string) :
  msg_type msg = "groupchat" →
  PyStr.startswith (msg_body msg) _CMD_PREFIX = true →
  PyStr.strip (msg_body msg) = "!vstart " +:+ rest →
  subject_truthy (vote_subject st) = false →
  message W cfg msg st
  = (Ok tt,
     {| vote_subject := Some rest; votes_up := votes_up st;
        votes_down := votes_down st |},
     [SendMessage (ToBare (bare (msg_from msg))) (PStr "Voting started")
        "groupchat"]).
Proof.
  intros Htype Hpre Hstrip Hidle.
  destruct (split_cons " " rest) as (tok & toks & Hsplit).
  assert (Hparse : parse_body (msg_body msg) = "!vstart" :: tok :: toks).
  { unfold parse_body. rewrite Hstrip.
    change ("!vstart " +:+ rest)
      with (String "!" (String "v" (String "s" (String "t" (String "a"
             (String "r" (String "t" (String " " rest)))))))).
    simpl. by rewrite Hsplit. }
  assert (Hsel : select_cmds (msg_type msg) = Some _muc_cmds)
    by (rewrite Htype; apply select_cmds_groupchat).
  assert (Hjoin : PyStr.join " " (tok :: toks) = rest).
  { rewrite <- Hsplit. apply join_split. }
  rewrite (message_dispatch W cfg msg st "!vstart" (tok :: toks) _muc_cmds
             H_vote_start (PStr "Voting started")
             {| vote_subject := Some rest; votes_up := votes_up st;
                votes_down := votes_down st |} []); try done.
  - unfold route. rewrite Htype. reflexivity.
  - cbn [run_handler].
    rewrite (answer_ok _ _ _ _ _
               (vote_start_idle msg (tok :: toks) st Hidle ltac:(done))).
    by rewrite Hjoin.
Qed.

Lemma room_vstart_sets_subject_witness :
  message sample_world sample_config
    (room_message "alice" "!vstart Pizza  or   sushi? ") init_state
  = (Ok tt,
     {| vote_subject := Some "Pizza  or   sushi?"; votes_up := ∅;
        votes_down := ∅ |},
     [SendMessage (ToBare "room@conference.example.org")
        (PStr "Voting started") "groupchat"]).
Proof.
  by apply (room_vstart_sets_subject sample_world sample_config
              (room_message "alice" "!vstart Pizza  or   sushi? ")
              init_state "Pizza  or   sushi?").
Defined.

(** ** Help on one command, and the listing on any channel *)

Lemma getdoc_total h : ∃ doc, getdoc h = Some doc ∧ doc ≠ EmptyString.
Proof. destruct h; eexists; (split; [reflexivity|discriminate]). Qed.

(** X17.  Help with exactly one argument answers with the full docstring
    of the named command, as [inspect.getdoc] gives it, followed by the
    line with the address of the source when the name is a key of the
    table selected by the message type, and with nothing when it is not:
    on a direct channel the commands of the room alone are not
    documented.  It never raises on a recognised channel.  For a
    docstring of more than one line, such as that of surl, the answer
    keeps the last line of eight spaces of the docstring. *)
Theorem help_for_one_command W (msg : Message) (name : string) table
    (st : BotState) :
  select_cmds (msg_type msg) = Some table →
  (table !! name = None → _help W msg [name] st = (Ok None, st, []))
  ∧ (∀ h, table !! name = Some h →
       ∃ doc, getdoc h = Some doc
              ∧ _help W msg [name] st
                = (Ok (Some (doc +:+ linesep W
                             +:+ "Source code available at http://kurzma.ch/botsrc")),
                   st, []))
  ∧ (table !! name = Some H_shorten_url →
     _help W msg [name] st
     = (Ok (Some (PyStr.join PyStr.nl
                    ["Shorten a URL with the http://kurzma.ch URL shortener";
                     EmptyString;
                     "shorturl http://myurl.com";
                     "        "]
                  +:+ linesep W
                  +:+ "Source code available at http://kurzma.ch/botsrc")),
        st, [])).
Proof.
  intros Hsel.
  assert (Hknown : ∀ h, table !! name = Some h →
            ∃ doc, getdoc h = Some doc
                   ∧ _help W msg [name] st
                     = (Ok (Some (doc +:+ linesep W +:+ help_src)), st, [])).
  { intros h Hlook. destruct (getdoc_total h) as (doc & Hdoc & _).
    exists doc. split; [done|].
    unfold _help. rewrite Hsel. cbn [length Nat.ltb Nat.leb read_local].
    rewrite bind_ret_l, Hlook, Hdoc. reflexivity. }
  split_and!.
  - intros Hnone. by eapply help_unknown_name.
  - exact Hknown.
  - intros Hlook. destruct (Hknown _ Hlook) as (doc & Hdoc & ->).
    injection Hdoc as <-. reflexivity.
Qed.

Lemma help_for_one_command_witness :
  _help sample_world
    (mkMessage "!help vup" "chat" (mkJID "alice@example.org" "desk"))
    ["vup"] init_state = (Ok None, init_state, [])
  ∧ _help sample_world (room_message "alice" "!help vup") ["vup"]
      init_state
    = (Ok (Some (PyStr.join PyStr.nl
                   ["Vote up for the current voting";
                    "Source code available at http://kurzma.ch/botsrc"])),
       init_state, [])
  ∧ _help sample_world (room_message "alice" "!help surl") ["surl"]
      init_state
    = (Ok (Some (PyStr.join PyStr.nl
                   ["Shorten a URL with the http://kurzma.ch URL shortener";
                    EmptyString;
                    "shorturl http://myurl.com";
                    "        ";
                    "Source code available at http://kurzma.ch/botsrc"])),
       init_state, []).
Proof.
  split_and!.
  - by apply (proj1 (help_for_one_command sample_world
                       (mkMessage "!help vup" "chat"
                          (mkJID "alice@example.org" "desk"))
                       "vup" _cmds init_state eq_refl)).
  - destruct (proj1 (proj2 (help_for_one_command sample_world
                       (room_message "alice" "!help vup")
                       "vup" _muc_cmds init_state eq_refl))
                H_vote_up eq_refl) as (doc & Hdoc & ->).
    injection Hdoc as <-. reflexivity.
  - rewrite (proj2 (proj2 (help_for_one_command sample_world
                       (room_message "alice" "!help surl")
                       "surl" _muc_cmds init_state eq_refl)) eq_refl).
    reflexivity.
Defined.



(** ** Handlers that call out *)

Lemma bind_lift_ok {A B} (r : Result A) (k : A → M B) a st :
  r = Ok a → bind (lift r) k st = k a st.
Proof. intros ->. unfold bind, lift. by destruct (k a st) as [[??]?]. Qed.

Lemma bind_lift_raise {A B} (r : Result A) (k : A → M B) e st :
  r = Raise e → bind (lift r) k st = (Raise e, st, []).
Proof. by intros ->. Qed.

Lemma response_json_ok r js st :
  json r = Some js → response_json r st = (Ok js, st, []).
Proof. intros E. unfold response_json. by rewrite E. Qed.

Lemma response_json_fail r st :
  json r = None → response_json r st = (Raise ValueError, st, []).
Proof. intros E. unfold response_json. by rewrite E. Qed.

(** The one request of [chuck_fetch], whatever comes back. *)
Lemma chuck_fetch_trace W params st :
  trace_of (chuck_fetch W params st) = [HttpGet chuck_api params].
Proof.
  unfold chuck_fetch. fold chuck_api.
  destruct (http_get W chuck_api params) as [r|] eqn:Hget.
  - rewrite (bind_ok _ _ _ _ _ _ (requests_get_ok _ _ _ _ _ Hget)).
    unfold trace_of. cbn [snd].
    unfold response_json, bind, lift, ret.
    destruct (json r) as [js|]; [|done].
    destruct (getitem js "value") as [value|]; [|done].
    destruct (getitem value "joke") as [joke|]; [|done].
    by destruct (html_unescape W joke).
  - by rewrite (bind_raise _ _ _ _ _ _ (requests_get_fail _ _ _ _ Hget)).
Qed.

(** X19.  The joke handler checks its arguments before it calls out:
    with one argument, or with three or more, it answers with the usage
    text and makes no request; with none or with exactly two it makes
    exactly one request to the joke API, without parameters or with the
    two names as first and last name. *)
Theorem chuck_checks_arguments_first W (msg : Message) (args : list string)
    (st : BotState) :
  (length args ≠ 0 → length args ≠ 2 →
   _chuck_norris W msg args st
   = (Ok (PStr "You must append a firstname *and* a lastname"), st, []))
  ∧ (args = [] →
     trace_of (_chuck_norris W msg args st) = [HttpGet chuck_api None])
  ∧ (∀ first last, args = [first; last] →
       trace_of (_chuck_norris W msg args st)
       = [HttpGet chuck_api
            (Some [("firstName", PStr first); ("lastName", PStr last)])]).
Proof.
  split_and!.
  - intros H0 H2. by destruct args as [|a [|b [|c rest]]].
  - intros ->. apply chuck_fetch_trace.
  - intros first last ->. apply chuck_fetch_trace.
Qed.

Lemma chuck_checks_arguments_first_witness :
  _chuck_norris sample_world (room_message "alice" "!chuck Bruce")
    ["Bruce"] init_state
  = (Ok (PStr "You must append a firstname *and* a lastname"),
     init_state, [])
  ∧ trace_of (_chuck_norris sample_world
                (room_message "alice" "!chuck Bruce Lee")
                ["Bruce"; "Lee"] init_state)
    = [HttpGet chuck_api
         (Some [("firstName", PStr "Bruce"); ("lastName", PStr "Lee")])].
Proof.
  split.
  - apply (proj1 (chuck_checks_arguments_first sample_world
                    (room_message "alice" "!chuck Bruce") ["Bruce"]
                    init_state)); simpl; lia.
  - by apply (proj2 (proj2 (chuck_checks_arguments_first sample_world
                    (room_message "alice" "!chuck Bruce Lee")
                    ["Bruce"; "Lee"] init_state))).
Defined.

(** X20.  Without arguments the joke handler makes its one request and
    never looks at the HTTP status of the answer.  When the body is JSON
    holding a value with a joke, the handler ends as the call of
    [HTMLParser().unescape] on that joke ends: it returns what the call
    returns and raises what the call raises, [AttributeError] where the
    method no longer exists.  When the body is not JSON the handler
    raises [ValueError], and a missing key raises what the lookup
    raises: none of these failures is turned into a reply. *)
Theorem chuck_joke_is_unescaped W (msg : Message) (st : BotState)
    (r : Response) :
  http_get W chuck_api None = Some r →
  (∀ js value joke,
     json r = Some js →
     getitem js "value" = Ok value →
     getitem value "joke" = Ok joke →
     _chuck_norris W msg [] st
     = (html_unescape W joke, st, [HttpGet chuck_api None]))
  ∧ (json r = None →
     _chuck_norris W msg [] st
     = (Raise ValueError, st, [HttpGet chuck_api None]))
  ∧ (∀ js e,
       json r = Some js → getitem js "value" = Raise e →
       _chuck_norris W msg [] st = (Raise e, st, [HttpGet chuck_api None]))
  ∧ (∀ js value e,
       json r = Some js → getitem js "value" = Ok value →
       getitem value "joke" = Raise e →
       _chuck_norris W msg [] st = (Raise e, st, [HttpGet chuck_api None])).
Proof.
  intros Hget. unfold _chuck_norris, chuck_fetch. fold chuck_api.
  rewrite (bind_ok _ _ _ _ _ _ (requests_get_ok _ _ _ _ _ Hget)).
  split_and!.
  - intros js value joke Hjs Hv Hj.
    rewrite (bind_ok _ _ _ _ _ _ (response_json_ok _ _ _ Hjs)).
    rewrite (bind_lift_ok _ _ _ _ Hv), (bind_lift_ok _ _ _ _ Hj).
    unfold lift. by destruct (html_unescape W joke).
  - intros Hjs.
    by rewrite (bind_raise _ _ _ _ _ _ (response_json_fail _ _ Hjs)).
  - intros js e Hjs Hv.
    rewrite (bind_ok _ _ _ _ _ _ (response_json_ok _ _ _ Hjs)).
    by rewrite (bind_lift_raise _ _ _ _ Hv).
  - intros js value e Hjs Hv Hj.
    rewrite (bind_ok _ _ _ _ _ _ (response_json_ok _ _ _ Hjs)).
    rewrite (bind_lift_ok _ _ _ _ Hv).
    by rewrite (bind_lift_raise _ _ _ _ Hj).
Qed.

Lemma chuck_joke_is_unescaped_witness :
  let joke := PStr "Chuck Norris counts to infinity." in
  _chuck_norris modern_world (room_message "alice" "!chuck") [] init_state
  = (Raise AttributeError, init_state, [HttpGet chuck_api None])
  ∧ _chuck_norris joke_world (room_message "alice" "!chuck") [] init_state
    = (Ok joke, init_state, [HttpGet chuck_api None])
  ∧ _chuck_norris failing_world (room_message "alice" "!chuck") []
      init_state
    = (Raise ValueError, init_state, [HttpGet chuck_api None]).
Proof.
  intros joke. split_and!.
  - by eapply (proj1 (chuck_joke_is_unescaped modern_world
                        (room_message "alice" "!chuck") init_state _
                        eq_refl)).
  - by eapply (proj1 (chuck_joke_is_unescaped joke_world
                        (room_message "alice" "!chuck") init_state _
                        eq_refl)).
  - by eapply (proj1 (proj2 (chuck_joke_is_unescaped failing_world
                        (room_message "alice" "!chuck") init_state _
                        eq_refl))).
Defined.

(** X21.  The shortener handler turns only a status other than 200 into
    a reply.  When the request itself fails, the exception of the HTTP
    library goes through; when the status is 200 and the body is not
    JSON it raises [ValueError]; and when the JSON lacks the title or
    the short URL it raises what the lookup raises.  In each case the
    one request has been made and the session is untouched. *)
Theorem shorten_url_failures W cfg (msg : Message) (arg : pyval)
    (args : list pyval) (st : BotState) :
  let params := Some (surl_params cfg (PTuple (arg :: args))) in
  let run := _shorten_url W cfg msg (arg :: args) st in
  let request := [HttpGet (surl_api cfg) params] in
  (http_get W (surl_api cfg) params = None →
   run = (Raise RequestException, st, request))
  ∧ (∀ r, http_get W (surl_api cfg) params = Some r →
          status_code r = 200 → json r = None →
          run = (Raise ValueError, st, request))
  ∧ (∀ r js e, http_get W (surl_api cfg) params = Some r →
          status_code r = 200 → json r = Some js →
          getitem js "title" = Raise e →
          run = (Raise e, st, request))
  ∧ (∀ r js title e, http_get W (surl_api cfg) params = Some r →
          status_code r = 200 → json r = Some js →
          getitem js "title" = Ok title →
          getitem js "shorturl" = Raise e →
          run = (Raise e, st, request)).
Proof.
  intros params run request. subst params run request.
  unfold _shorten_url. fold (surl_params cfg (PTuple (arg :: args))).
  split_and!.
  - intros Hget.
    by rewrite (bind_raise _ _ _ _ _ _ (requests_get_fail _ _ _ _ Hget)).
  - intros r Hget Hstatus Hjs.
    rewrite (bind_ok _ _ _ _ _ _ (requests_get_ok _ _ _ _ _ Hget)).
    rewrite Hstatus. cbn [Nat.eqb].
    by rewrite (bind_raise _ _ _ _ _ _ (response_json_fail _ _ Hjs)).
  - intros r js e Hget Hstatus Hjs Ht.
    rewrite (bind_ok _ _ _ _ _ _ (requests_get_ok _ _ _ _ _ Hget)).
    rewrite Hstatus. cbn [Nat.eqb].
    rewrite (bind_ok _ _ _ _ _ _ (response_json_ok _ _ _ Hjs)).
    by rewrite (bind_lift_raise _ _ _ _ Ht).
  - intros r js title e Hget Hstatus Hjs Ht Hs.
    rewrite (bind_ok _ _ _ _ _ _ (requests_get_ok _ _ _ _ _ Hget)).
    rewrite Hstatus. cbn [Nat.eqb].
    rewrite (bind_ok _ _ _ _ _ _ (response_json_ok _ _ _ Hjs)).
    rewrite (bind_lift_ok _ _ _ _ Ht).
    by rewrite (bind_lift_raise _ _ _ _ Hs).
Qed.

Lemma shorten_url_failures_witness :
  _shorten_url html_world sample_config
    (room_message "alice" "!surl http://example.org/a")
    [PStr "http://example.org/a"] init_state
  = (Raise ValueError, init_state,
     [HttpGet (surl_api sample_config)
        (Some (surl_params sample_config
                 (PTuple [PStr "http://example.org/a"])))]).
Proof.
  by eapply (proj1 (proj2 (shorten_url_failures html_world sample_config
                      (room_message "alice" "!surl http://example.org/a")
                      (PStr "http://example.org/a") [] init_state))).
Defined.

(** X22.  Whenever today is among its arguments, whatever else is, the
    Wikipedia handler reads the featured feed and makes no request of
    its own: an empty feed raises [IndexError], a last entry without a
    link raises [KeyError], and otherwise the handler does what the
    shortener handler does with that link as its only argument. *)
Theorem wikipedia_today W cfg (msg : Message) (args : list string)
    (st : BotState) :
  "today" ∈ args →
  (last (feed_items W wiki_feed) = None →
   _wikipedia W cfg msg args st = (Raise IndexError, st, [FeedParse wiki_feed]))
  ∧ (last (feed_items W wiki_feed) = Some None →
     _wikipedia W cfg msg args st
     = (Raise KeyError, st, [FeedParse wiki_feed]))
  ∧ (∀ link, last (feed_items W wiki_feed) = Some (Some link) →
       result_of (_wikipedia W cfg msg args st)
       = result_of (_shorten_url W cfg msg [link] st)
       ∧ state_of (_wikipedia W cfg msg args st) = st
       ∧ trace_of (_wikipedia W cfg msg args st)
         = FeedParse wiki_feed
             :: trace_of (_shorten_url W cfg msg [link] st)).
Proof.
  intros Htoday. unfold _wikipedia. fold wiki_feed.
  rewrite bool_decide_eq_true_2 by done.
  unfold bind at 1. cbn [emit].
  split_and!.
  - by intros ->.
  - by intros ->.
  - intros link ->.
    pose proof (keeps_shorten_url W cfg msg [link] st) as Hk.
    unfold bind, emit, result_of, state_of, trace_of in *.
    destruct (_shorten_url W cfg msg [link] st) as [[r st1] tr1].
    simpl in *. subst st1. by destruct r.
Qed.

Lemma wikipedia_today_witness :
  _wikipedia sample_world sample_config
    (room_message "alice" "!wiki about today") ["about"; "today"] init_state
  = (Raise IndexError, init_state, [FeedParse wiki_feed])
  ∧ result_of (_wikipedia wiki_world sample_config
                 (room_message "alice" "!wiki today") ["today"] init_state)
    = Ok (Some "Example: http://kurzma.ch/1").
Proof.
  split.
  - apply (proj1 (wikipedia_today sample_world sample_config
                    (room_message "alice" "!wiki about today")
                    ["about"; "today"] init_state ltac:(set_solver))).
    reflexivity.
  - rewrite (proj1 (proj2 (proj2 (wikipedia_today wiki_world sample_config
                      (room_message "alice" "!wiki today")
                      ["today"] init_state ltac:(set_solver)))
               (PStr "https://de.wikipedia.org/wiki/Heute") eq_refl)).
    reflexivity.
Defined.

(** X23.  Without today among its arguments, the Wikipedia handler asks
    the Wikipedia API for one random page, takes the full URL of the
    first page of the answer and has the shortener shorten it: when both
    services answer as expected, the reply is the title, a colon and a
    space, and the short URL, and exactly these two requests were made,
    the second with that URL alone as its url parameter. *)
Theorem wikipedia_random_page W cfg (msg : Message) (args : list string)
    (st : BotState) r js query key page others url r2 js2 title short :
  "today" ∉ args →
  http_get W wiki_api (Some wiki_params) = Some r →
  json r = Some js →
  getitem js "query" = Ok query →
  getitem query "pages" = Ok (PDict ((key, page) :: others)) →
  getitem page "fullurl" = Ok url →
  http_get W (surl_api cfg) (Some (surl_params cfg (PTuple [url]))) = Some r2 →
  status_code r2 = 200 →
  json r2 = Some js2 →
  getitem js2 "title" = Ok (PStr title) →
  getitem js2 "shorturl" = Ok (PStr short) →
  _wikipedia W cfg msg args st
  = (Ok (Some (title +:+ ": " +:+ short)), st,
     [HttpGet wiki_api (Some wiki_params);
      HttpGet (surl_api cfg) (Some (surl_params cfg (PTuple [url])))]).
Proof.
  intros Htoday Hget Hjs Hq Hp Hu Hget2 Hstatus Hjs2 Ht Hs.
  assert (Hsurl : _shorten_url W cfg msg [url] st
                  = (Ok (Some (title +:+ ": " +:+ short)), st,
                     [HttpGet (surl_api cfg)
                        (Some (surl_params cfg (PTuple [url])))])).
  { unfold _shorten_url. fold (surl_params cfg (PTuple [url])).
    rewrite (bind_ok _ _ _ _ _ _ (requests_get_ok _ _ _ _ _ Hget2)).
    rewrite Hstatus. cbn [Nat.eqb].
    rewrite (bind_ok _ _ _ _ _ _ (response_json_ok _ _ _ Hjs2)).
    by rewrite (bind_lift_ok _ _ _ _ Ht), (bind_lift_ok _ _ _ _ Hs). }
  unfold _wikipedia. rewrite bool_decide_eq_false_2 by done.
  fold wiki_api wiki_params.
  rewrite (bind_ok _ _ _ _ _ _ (requests_get_ok _ _ _ _ _ Hget)).
  rewrite (bind_ok _ _ _ _ _ _ (response_json_ok _ _ _ Hjs)).
  rewrite (bind_lift_ok _ _ _ _ Hq), (bind_lift_ok _ _ _ _ Hp).
  rewrite (bind_lift_ok (first_value _) _ page) by done.
  rewrite (bind_lift_ok _ _ _ _ Hu).
  by rewrite (bind_ok _ _ _ _ _ _ Hsurl).
Qed.

Lemma wikipedia_random_page_witness :
  _wikipedia wiki_world sample_config (room_message "alice" "!wiki") []
    init_state
  = (Ok (Some "Example: http://kurzma.ch/1"), init_state,
     [HttpGet wiki_api (Some wiki_params);
      HttpGet (surl_api sample_config)
        (Some (surl_params sample_config
                 (PTuple [PStr "https://de.wikipedia.org/wiki/Jabber"])))]).
Proof.
  eapply (wikipedia_random_page wiki_world sample_config
            (room_message "alice" "!wiki") [] init_state)
    with (title := "Example") (short := "http://kurzma.ch/1");
    first [reflexivity | set_solver].
Defined.

(** ** Handlers that read a template file *)

(** [random.choice] fails on the empty list only, and what it returns is
    an element of the list. *)
Lemma choice_nil W : choice W [] = Raise IndexError.
Proof. reflexivity. Qed.

Lemma choice_elem W (l : list string) :
  l ≠ [] → ∃ x, choice W l = Ok x ∧ x ∈ l.
Proof.
  intros Hl. unfold choice.
  assert (Hlt : rand_pick W (length l) `mod` length l < length l).
  { apply Nat.mod_upper_bound. by destruct l. }
  apply lookup_lt_is_Some in Hlt as [x Hx]. rewrite Hx.
  exists x. split; [done|]. by eapply list_elem_of_lookup_2.
Qed.

Lemma read_stripped_ok W name ls st :
  read_lines W name = Some ls →
  read_stripped W name st = (Ok (PyStr.strip <$> ls), st, [OpenFile name]).
Proof. intros E. unfold read_stripped, bind, emit, ret. by rewrite E. Qed.

Lemma read_stripped_fail W name st :
  read_lines W name = None →
  read_stripped W name st = (Raise OSError, st, [OpenFile name]).
Proof. intros E. unfold read_stripped, bind, emit, raise. by rewrite E. Qed.

(** X24.  Slap answers with a prompt, without opening the template
    file, when its arguments join to the empty string.  Otherwise it
    opens the file of slaps: it raises [OSError] when the file cannot be
    opened and [IndexError] when it has no line; and when it has lines,
    the answer is the action marker followed by one of the stripped
    lines of the file, formatted with the joined arguments as nick. *)
Theorem slap_cases W (msg : Message) (args : list string) (st : BotState) :
  let nick := PyStr.join " " args in
  (nick = EmptyString →
   _slap W msg args st = (Ok (Some "You have to provide a nick name"), st, []))
  ∧ (nick ≠ EmptyString → read_lines W "slaps.txt" = None →
     _slap W msg args st = (Raise OSError, st, [OpenFile "slaps.txt"]))
  ∧ (nick ≠ EmptyString → read_lines W "slaps.txt" = Some [] →
     _slap W msg args st = (Raise IndexError, st, [OpenFile "slaps.txt"]))
  ∧ (nick ≠ EmptyString → ∀ ls,
       read_lines W "slaps.txt" = Some ls → ls ≠ [] →
       ∃ template, template ∈ (PyStr.strip <$> ls)
         ∧ _slap W msg args st
           = match format_nick W template nick with
             | Ok text => (Ok (Some ("/me " +:+ text)), st,
                           [OpenFile "slaps.txt"])
             | Raise e => (Raise e, st, [OpenFile "slaps.txt"])
             end).
Proof.
  intros nick. subst nick. unfold _slap. split_and!.
  - by intros ->.
  - intros Hnick Hread. apply truthy_true in Hnick. rewrite Hnick.
    cbn [negb].
    by rewrite (bind_raise _ _ _ _ _ _ (read_stripped_fail _ _ _ Hread)).
  - intros Hnick Hread. apply truthy_true in Hnick. rewrite Hnick.
    cbn [negb].
    by rewrite (bind_ok _ _ _ _ _ _ (read_stripped_ok _ _ _ _ Hread)).
  - intros Hnick ls Hread Hls.
    pose proof Hnick as Htruthy. apply truthy_true in Htruthy.
    rewrite Htruthy. cbn [negb].
    rewrite (bind_ok _ _ _ _ _ _ (read_stripped_ok _ _ _ _ Hread)).
    destruct (choice_elem W (PyStr.strip <$> ls)) as (template & Hc & Hin).
    { by destruct ls. }
    exists template. split; [done|].
    rewrite (bind_lift_ok _ _ _ _ Hc).
    by destruct (format_nick W template _).
Qed.

Lemma slap_cases_witness :
  _slap sample_world (room_message "alice" "!slap") [] init_state
  = (Ok (Some "You have to provide a nick name"), init_state, [])
  ∧ _slap joke_world (room_message "alice" "!slap bob") ["bob"] init_state
    = (Raise OSError, init_state, [OpenFile "slaps.txt"])
  ∧ _slap html_world (room_message "alice" "!slap bob") ["bob"] init_state
    = (Raise IndexError, init_state, [OpenFile "slaps.txt"])
  ∧ ∃ template, template ∈ (PyStr.strip <$> ["pokes {nick}"])
      ∧ _slap sample_world (room_message "alice" "!slap bob") ["bob"]
          init_state
        = match format_nick sample_world template "bob" with
          | Ok text => (Ok (Some ("/me " +:+ text)), init_state,
                        [OpenFile "slaps.txt"])
          | Raise e => (Raise e, init_state, [OpenFile "slaps.txt"])
          end.
Proof.
  split_and!.
  - by apply (proj1 (slap_cases sample_world
                       (room_message "alice" "!slap") [] init_state)).
  - by apply (proj1 (proj2 (slap_cases joke_world
                       (room_message "alice" "!slap bob") ["bob"]
                       init_state))).
  - by apply (proj1 (proj2 (proj2 (slap_cases html_world
                       (room_message "alice" "!slap bob") ["bob"]
                       init_state)))).
  - by apply (proj2 (proj2 (proj2 (slap_cases sample_world
                       (room_message "alice" "!slap bob") ["bob"]
                       init_state)))).
Defined.

(** X25.  Taunt opens the file of jokes before it looks at its
    arguments: it raises [OSError] when the file cannot be opened and
    [IndexError] when it has no line, with or without arguments.  When
    the file has lines, the answer is one of its stripped lines
    formatted with the possessive of the joined arguments as nick, or
    with the default possessive when there is no argument. *)
Theorem taunt_cases W (msg : Message) (args : list string) (st : BotState) :
  (read_lines W "mother_jokes.txt" = None →
   _taunt W msg args st = (Raise OSError, st, [OpenFile "mother_jokes.txt"]))
  ∧ (read_lines W "mother_jokes.txt" = Some [] →
     _taunt W msg args st
     = (Raise IndexError, st, [OpenFile "mother_jokes.txt"]))
  ∧ (∀ ls, read_lines W "mother_jokes.txt" = Some ls → ls ≠ [] →
       ∃ joke, joke ∈ (PyStr.strip <$> ls)
         ∧ _taunt W msg args st
           = match format_nick W joke (taunt_nick args) with
             | Ok text => (Ok (Some text), st, [OpenFile "mother_jokes.txt"])
             | Raise e => (Raise e, st, [OpenFile "mother_jokes.txt"])
             end).
Proof.
  unfold _taunt. split_and!.
  - intros Hread.
    by rewrite (bind_raise _ _ _ _ _ _ (read_stripped_fail _ _ _ Hread)).
  - intros Hread.
    by rewrite (bind_ok _ _ _ _ _ _ (read_stripped_ok _ _ _ _ Hread)).
  - intros ls Hread Hls.
    rewrite (bind_ok _ _ _ _ _ _ (read_stripped_ok _ _ _ _ Hread)).
    destruct (choice_elem W (PyStr.strip <$> ls)) as (joke & Hc & Hin).
    { by destruct ls. }
    exists joke. split; [done|].
    rewrite (bind_lift_ok _ _ _ _ Hc). cbv zeta.
    replace (match args with [] => "Deine" | _ :: _ => _ end)
      with (taunt_nick args) by (by destruct args).
    by destruct (format_nick W joke _).
Qed.

Lemma taunt_cases_witness :
  _taunt joke_world (room_message "alice" "!taunt bob") ["bob"] init_state
  = (Raise OSError, init_state, [OpenFile "mother_jokes.txt"])
  ∧ _taunt html_world (room_message "alice" "!taunt") [] init_state
    = (Raise IndexError, init_state, [OpenFile "mother_jokes.txt"])
  ∧ ∃ joke, joke ∈ (PyStr.strip <$> ["pokes {nick}"])
      ∧ _taunt sample_world (room_message "alice" "!taunt bob") ["bob"]
          init_state
        = match format_nick sample_world joke (taunt_nick ["bob"]) with
          | Ok text => (Ok (Some text), init_state,
                        [OpenFile "mother_jokes.txt"])
          | Raise e => (Raise e, init_state, [OpenFile "mother_jokes.txt"])
          end.
Proof.
  split_and!.
  - by apply (proj1 (taunt_cases joke_world
                       (room_message "alice" "!taunt bob") ["bob"]
                       init_state)).
  - by apply (proj1 (proj2 (taunt_cases html_world
                       (room_message "alice" "!taunt") [] init_state))).
  - by apply (proj2 (proj2 (taunt_cases sample_world
                       (room_message "alice" "!taunt bob") ["bob"]
                       init_state))).
Defined.

(** ** Voting from the room *)

(** X26.  In the room, while a vote is running, a vup from an occupant
    who is not yet among the up voters puts the occupant's nickname
    among the up voters and not among the down voters, leaves subject
    and other voters alone, and tells the room that the nickname voted
    up; whatever follows the command on the line is ignored. *)
Theorem room_vup_counts_the_sender W cfg (msg : Message) (st : BotState)
    (args : list string) :
  msg_type msg = "groupchat" →
  PyStr.startswith (msg_body msg) _CMD_PREFIX = true →
  parse_body (msg_body msg) = "!vup" :: args →
  subject_truthy (vote_subject st) = true →
  resource (msg_from msg) ∉ votes_up st →
  let nick := resource (msg_from msg) in
  let st' := state_of (message W cfg msg st) in
  message W cfg msg st
  = (Ok tt, st',
     [SendMessage (ToBare (bare (msg_from msg))) (PStr (nick +:+ " voted up"))
        "groupchat"])
  ∧ vote_subject st' = vote_subject st
  ∧ votes_up st' = {[nick]} ∪ votes_up st
  ∧ votes_down st' = votes_down st ∖ {[nick]}.
Proof.
  intros Htype Hpre Hparse Hrun Hnew nick st'.
  assert (Hsel : select_cmds (msg_type msg) = Some _muc_cmds)
    by (rewrite Htype; apply select_cmds_groupchat).
  set (down := if bool_decide (nick ∈ votes_down st)
               then votes_down st ∖ {[nick]} else votes_down st).
  assert (Hup : _vote_up msg args st
                = (Ok (Some (nick +:+ " voted up")),
                   {| vote_subject := vote_subject st;
                      votes_up := {[nick]} ∪ votes_up st;
                      votes_down := down |}, [])).
  { unfold _vote_up, bind, get_state, put_state, ret. rewrite Hrun.
    cbn [negb]. fold nick. by rewrite bool_decide_eq_false_2. }
  assert (Hmsg : message W cfg msg st
                 = (Ok tt,
                    {| vote_subject := vote_subject st;
                       votes_up := {[nick]} ∪ votes_up st;
                       votes_down := down |},
                    [SendMessage (ToBare (bare (msg_from msg)))
                       (PStr (nick +:+ " voted up")) "groupchat"])).
  { rewrite (message_dispatch W cfg msg st "!vup" args _muc_cmds H_vote_up
               _ _ _ Hpre Hparse Hsel eq_refl (answer_ok _ _ _ _ _ Hup)).
    unfold route. rewrite Htype. reflexivity. }
  subst st'. rewrite Hmsg. unfold state_of. simpl.
  split_and!; [done..|].
  subst down. case_bool_decide; [done|]. set_solver.
Qed.

Lemma room_vup_counts_the_sender_witness :
  let st := {| vote_subject := Some "Pizza?"; votes_up := {["bob"]};
               votes_down := {["alice"]} |} in
  votes_up (state_of (message sample_world sample_config
                        (room_message "alice" "!vup please") st))
  = {["alice"]} ∪ {["bob"]}.
Proof.
  intros st.
  refine (proj1 (proj2 (proj2
            (room_vup_counts_the_sender sample_world sample_config
               (room_message "alice" "!vup please") st ["please"]
               eq_refl eq_refl eq_refl eq_refl _)))).
  unfold st. simpl. set_solver.
Defined.
